(** * extract-email-parts.py: a model of the extractor and its specification

    The script reads one MIME message from a file, parses it with Python's
    [email] package, keeps an HTML body and a plain-text body, and writes
    each one it kept to a file of fixed name.

    The model follows the script statement by statement.  What the Python
    runtime and the [email] package do is modelled at their documented
    interface:
    - a Python [str] is a list of code points, [bytes] a list of octets;
    - the UTF-8 codec (reading with [errors='ignore'], writing strictly);
    - a parsed message is the tree of parts [walk] goes through, each
      part with the results of the methods the script calls on it
      ([get_content_type], [get_content], [is_multipart]);
    - the parser itself ([email.message_from_file]) is a parameter: a
      function from the text to a message or to the exception it raises;
    - the file system is a finite map from paths to contents, standard
      output a list of printed lines.

    Outside the model: a header lookup that raises, a path
    that cannot be opened for writing, a console that cannot show a
    character, and a platform whose line separator is not a line feed. *)

From Stdlib Require Import NArith ZArith Lia String Ascii List DecimalString.
From stdpp Require Import base option list gmap strings.

Local Open Scope N_scope.

(** ** Text and bytes *)

(** A Python [str]: the sequence of its code points. *)
Abbreviation pystr := (list N).

(** A Python [bytes] object, and the content of a file. *)
Abbreviation bytes := (list N).

(** A literal of the script (ASCII) as a [str]. *)
Definition lit (s : string) : pystr :=
  map N_of_ascii (list_ascii_of_string s).

(** Decimal rendering of a length, as [f"{len(x)}"] produces it. *)
Definition decimal (n : nat) : pystr :=
  lit (NilZero.string_of_uint (Nat.to_uint n)).

Module Utf8.

(** A code point the strict UTF-8 encoder accepts: a Unicode scalar
    value (no surrogate, at most U+10FFFF). *)
Definition scalar (c : N) : Prop :=
  c < 0xD800 \/ (0xE000 <= c /\ c < 0x110000).

(** A continuation byte [10xxxxxx]. *)
Definition cont (b : N) : bool := (0x80 <=? b) && (b <? 0xC0).

(** [str.encode('utf-8')] on one code point; [None] is
    [UnicodeEncodeError] (surrogates cannot be encoded). *)
Definition encode_char (c : N) : option bytes :=
  if c <? 0x80 then Some [c]
  else if c <? 0x800 then
    Some [0xC0 + c / 0x40; 0x80 + c mod 0x40]
  else if c <? 0x10000 then
    if (0xD800 <=? c) && (c <? 0xE000) then None
    else Some [0xE0 + c / 0x1000; 0x80 + (c / 0x40) mod 0x40;
               0x80 + c mod 0x40]
  else if c <? 0x110000 then
    Some [0xF0 + c / 0x40000; 0x80 + (c / 0x1000) mod 0x40;
          0x80 + (c / 0x40) mod 0x40; 0x80 + c mod 0x40]
  else None.

Fixpoint encode (s : pystr) : option bytes :=
  match s with
  | [] => Some []
  | c :: s' =>
      match encode_char c, encode s' with
      | Some b, Some bs => Some (b ++ bs)
      | _, _ => None
      end
  end.

(** The range of the second byte after lead byte [b0] (it excludes
    overlong forms, surrogates and values above U+10FFFF). *)
Definition second_ok (b0 b1 : N) : bool :=
  if b0 =? 0xE0 then (0xA0 <=? b1) && (b1 <? 0xC0)
  else if b0 =? 0xED then (0x80 <=? b1) && (b1 <? 0xA0)
  else if b0 =? 0xF0 then (0x90 <=? b1) && (b1 <? 0xC0)
  else if b0 =? 0xF4 then (0x80 <=? b1) && (b1 <? 0x90)
  else cont b1.

(** [bytes.decode('utf-8', errors='ignore')]: a well-formed sequence
    gives its code point; a byte that cannot start or continue one is
    skipped, and decoding resumes right after the longest prefix of a
    sequence that was read (at the offending byte itself when it is
    not the first). *)
Fixpoint decode_ignore (bs : bytes) : pystr :=
  match bs with
  | [] => []
  | b0 :: r0 =>
      if b0 <? 0x80 then b0 :: decode_ignore r0
      else if b0 <? 0xC2 then decode_ignore r0
      else if b0 <? 0xE0 then
        match r0 with
        | b1 :: r1 =>
            if cont b1
            then ((b0 - 0xC0) * 0x40 + (b1 - 0x80)) :: decode_ignore r1
            else decode_ignore r0
        | [] => []
        end
      else if b0 <? 0xF0 then
        match r0 with
        | b1 :: r1 =>
            if second_ok b0 b1 then
              match r1 with
              | b2 :: r2 =>
                  if cont b2
                  then ((b0 - 0xE0) * 0x1000 + (b1 - 0x80) * 0x40
                        + (b2 - 0x80)) :: decode_ignore r2
                  else decode_ignore r1
              | [] => []
              end
            else decode_ignore r0
        | [] => []
        end
      else if b0 <? 0xF5 then
        match r0 with
        | b1 :: r1 =>
            if second_ok b0 b1 then
              match r1 with
              | b2 :: r2 =>
                  if cont b2 then
                    match r2 with
                    | b3 :: r3 =>
                        if cont b3
                        then ((b0 - 0xF0) * 0x40000 + (b1 - 0x80) * 0x1000
                              + (b2 - 0x80) * 0x40 + (b3 - 0x80))
                             :: decode_ignore r3
                        else decode_ignore r2
                    | [] => []
                    end
                  else decode_ignore r1
              | [] => []
              end
            else decode_ignore r0
        | [] => []
        end
      else decode_ignore r0
  end.

(** The byte sequences that encode one character: the lead byte gives
    the length and the range of the second byte, the others are
    continuation bytes. *)
Definition well_formed (bc : bytes) : bool :=
  match bc with
  | [b0] => b0 <? 0x80
  | [b0; b1] => negb (b0 <? 0xC2) && (b0 <? 0xE0) && cont b1
  | [b0; b1; b2] =>
      negb (b0 <? 0xE0) && (b0 <? 0xF0) && second_ok b0 b1 && cont b2
  | [b0; b1; b2; b3] =>
      negb (b0 <? 0xF0) && (b0 <? 0xF5) && second_ok b0 b1 && cont b2
      && cont b3
  | _ => false
  end.

(** Specification of [errors='ignore'], stated with the encoder alone.
    [starts_char pre]: some character's encoding begins with [pre].
    [cut_char pre]: [pre] is the beginning of a character's encoding,
    not all of it. *)
Definition starts_char (pre : bytes) : Prop :=
  exists c suf, encode_char c = Some (pre ++ suf).

Definition cut_char (pre : bytes) : Prop :=
  pre <> [] /\ exists c suf, suf <> [] /\ encode_char c = Some (pre ++ suf).

(** [lenient data text]: [text] is [data] decoded with every byte that
    is part of no character left out, and nothing else.  The bytes of
    a character give the character; a byte that begins no character
    is dropped; the beginning of a character that the next byte does
    not continue (or that the end of the data cuts) is dropped, and
    reading resumes at that next byte. *)
Inductive lenient : bytes -> pystr -> Prop :=
| lenient_nil : lenient [] []
| lenient_char c bc rest text :
    encode_char c = Some bc -> lenient rest text ->
    lenient (bc ++ rest) (c :: text)
| lenient_stray b rest text :
    ~ starts_char [b] -> lenient rest text ->
    lenient (b :: rest) text
| lenient_cut pre rest text :
    cut_char pre ->
    (forall b rest', rest = b :: rest' -> ~ starts_char (pre ++ [b])) ->
    lenient rest text ->
    lenient (pre ++ rest) text.

(** [kept_in out data]: the text [out] is well formed, and its encoding
    is [data] with some bytes left out. *)
Definition kept_in (out : pystr) (data : bytes) : Prop :=
  exists kept, encode out = Some kept /\ sublist kept data.

End Utf8.

(** Text-mode reading with the default [newline=None]: [\r\n] and a lone
    [\r] both become [\n]. *)
Fixpoint universal_newlines (s : pystr) : pystr :=
  match s with
  | [] => []
  | 13 :: s' =>
      match s' with
      | 10 :: s'' => 10 :: universal_newlines s''
      | _ => 10 :: universal_newlines s'
      end
  | c :: s' => c :: universal_newlines s'
  end.

(** Specification of universal newlines, as a relation: a carriage
    return with the line feed that follows it, or alone, is one line
    feed; every other character is itself. *)
Inductive normalised : pystr -> pystr -> Prop :=
| normalised_nil : normalised [] []
| normalised_crlf s t :
    normalised s t -> normalised (13 :: 10 :: s) (10 :: t)
| normalised_cr s t :
    (forall s', s <> 10 :: s') -> normalised s t ->
    normalised (13 :: s) (10 :: t)
| normalised_other c s t :
    c <> 13 -> normalised s t -> normalised (c :: s) (c :: t).

(** ** Python values and exceptions *)

(** The exceptions that can end a run. *)
Inductive exn :=
| SystemExit (code : Z)
| FileNotFoundError
| KeyError
| LookupError
| TypeError
| AttributeError
| IndexError
| UnicodeEncodeError.

Inductive result (A : Type) :=
| Ok (a : A)
| Raise (e : exn).
Arguments Ok {A} a.
Arguments Raise {A} e.

(** The values the variables [html_content] and [text_content] can hold:
    [None], a [str], a [bytes] object, or a message object (which
    [get_content] returns for [message/rfc822]; [headers] is its number
    of header fields, its [len]). *)
Inductive pyval :=
| PNone
| PStr (s : pystr)
| PBytes (b : bytes)
| PMessage (headers : nat).

(** [if v:] *)
Definition truthy (v : pyval) : bool :=
  match v with
  | PNone => false
  | PStr s => negb (Nat.eqb (length s) 0)
  | PBytes b => negb (Nat.eqb (length b) 0)
  | PMessage n => negb (Nat.eqb n 0)
  end.

(** [len(v)] *)
Definition len (v : pyval) : result nat :=
  match v with
  | PNone => Raise TypeError
  | PStr s => Ok (length s)
  | PBytes b => Ok (length b)
  | PMessage n => Ok n
  end.

(** ** Parsed messages *)

#[local] Set Warnings "-register-all".

(** A part of the message tree, with what the script observes of it:
    [ctype] is [get_content_type()] (lower case, of the form
    [maintype/subtype]), [content] is the outcome of [get_content()],
    and a part is [is_multipart()] when its payload is a list of parts. *)
Inductive part :=
| Leaf (ctype : pystr) (content : result pyval)
| Multi (ctype : pystr) (content : result pyval) (subparts : list part).

Definition get_content_type (p : part) : pystr :=
  match p with
  | Leaf ct _ => ct
  | Multi ct _ _ => ct
  end.

Definition get_content (p : part) : result pyval :=
  match p with
  | Leaf _ c => c
  | Multi _ c _ => c
  end.

Definition is_multipart (p : part) : bool :=
  match p with
  | Leaf _ _ => false
  | Multi _ _ _ => true
  end.

(** [walk()]: the part itself, then the walk of each subpart in order. *)
Fixpoint walk (p : part) : list part :=
  match p with
  | Leaf _ _ => [p]
  | Multi _ _ ps => p :: flat_map walk ps
  end.

(** The message object [msg]: the root part with the two header fields
    the script prints ([None] when the field is absent). *)
Record message := Message {
  subject : option pystr;
  sender : option pystr;
  root : part
}.

(** [msg.get(name, default)] *)
Definition get_header (h : option pystr) (default : pystr) : pystr :=
  match h with
  | Some v => v
  | None => default
  end.

Definition text_html : pystr := lit "text/html".
Definition text_plain : pystr := lit "text/plain".

(** [a == b] on strings. *)
Definition str_eqb (a b : pystr) : bool := bool_decide (a = b).

(** [get_content_maintype()]: what comes before the slash. *)
Fixpoint maintype (ct : pystr) : pystr :=
  match ct with
  | [] => []
  | c :: ct' => if c =? 47 then [] else c :: maintype ct'
  end.

Definition binary_maintypes : list pystr :=
  [lit "audio"; lit "image"; lit "video"; lit "application"].

(** The parts that the parser and [email.contentmanager.raw_data_manager]
    produce.  For a part that is not a list of parts, [get_content]
    returns a [str] for [text/*] (or raises [LookupError] for a charset
    Python does not know) and [bytes] for [audio], [image], [video] and
    [application]; it raises [KeyError] for any other main type (and
    [TypeError] for [message], which the parser never leaves without
    subparts).  A list of parts has main type [multipart] or [message]. *)
Definition leaf_shape (ct : pystr) (c : result pyval) : bool :=
  if str_eqb (maintype ct) (lit "text") then
    match c with
    | Ok (PStr _) | Raise LookupError => true
    | _ => false
    end
  else if bool_decide (maintype ct ∈ binary_maintypes) then
    match c with Ok (PBytes _) => true | _ => false end
  else if str_eqb (maintype ct) (lit "message") then
    match c with Raise TypeError => true | _ => false end
  else
    match c with Raise KeyError => true | _ => false end.

Fixpoint library_shape (p : part) : bool :=
  match p with
  | Leaf ct c => leaf_shape ct c
  | Multi ct _ ps =>
      (str_eqb (maintype ct) (lit "multipart")
       || str_eqb (maintype ct) (lit "message"))
      && forallb library_shape ps
  end.

(** ** The world of a run, and the monad of the script *)

(** Standard output (the lines printed so far), the files of the working
    directory, and the paths opened for writing so far (a record of the
    script's decisions, which no statement reads). *)
Record world := World {
  stdout : list pystr;
  files : gmap string bytes;
  opened : list string
}.

(** A statement: it changes the world and completes or raises. *)
Definition M (A : Type) : Type := world -> result A * world.

Definition ret {A} (a : A) : M A := fun w => (Ok a, w).

Definition raise {A} (e : exn) : M A := fun w => (Raise e, w).

Definition bind {A B} (c : M A) (k : A -> M B) : M B :=
  fun w =>
    match c w with
    | (Ok a, w') => k a w'
    | (Raise e, w') => (Raise e, w')
    end.

Definition lift {A} (r : result A) : M A := fun w => (r, w).

Declare Scope script_scope.
Delimit Scope script_scope with script.
Notation "x <- c ;; k" := (bind c (fun x => k))
  (at level 100, c at next level, right associativity) : script_scope.
Notation "c ;; k" := (bind c (fun _ => k))
  (at level 100, right associativity) : script_scope.
Local Open Scope script_scope.

(** [print(line)] *)
Definition print (line : pystr) : M unit :=
  fun w => (Ok tt, World (stdout w ++ [line]) (files w) (opened w)).

(** [sys.exit(code)] *)
Definition sys_exit (code : Z) : M unit := raise (SystemExit code).

(** [open(path, 'r', encoding='utf-8', errors='ignore')] and reading the
    whole file: the bytes that do not decode are ignored. *)
Definition read_text (path : string) : M pystr :=
  fun w =>
    match files w !! path with
    | Some data => (Ok (universal_newlines (Utf8.decode_ignore data)), w)
    | None => (Raise FileNotFoundError, w)
    end.

(** [open(path, 'w', encoding='utf-8')]: the file is created or emptied. *)
Definition open_write (path : string) : M unit :=
  fun w => (Ok tt, World (stdout w) (<[path := []]> (files w))
                         (opened w ++ [path])).

(** [f.write(v)]: only a [str] can be written to a text file, and only
    one that the strict encoder accepts; its encoding is added at the
    end of the file. *)
Definition write (path : string) (v : pyval) : M unit :=
  match v with
  | PStr s =>
      match Utf8.encode s with
      | Some b =>
          fun w => (Ok tt, World (stdout w)
                             (<[path := default [] (files w !! path) ++ b]>
                                (files w))
                             (opened w))
      | None => raise UnicodeEncodeError
      end
  | _ => raise TypeError
  end.

(** The world a run starts from. *)
Definition initial (fs : gmap string bytes) : world := World [] fs [].

(** ** The script *)

Definition html_file : string := "extracted-email.html".
Definition text_file : string := "extracted-email.txt".

Definition usage_line : pystr :=
  lit "Usage: python3 extract-email-parts.py email.txt".
Definition email_line (msg : message) : pystr :=
  [0x1F4E7] ++ lit " Email: " ++ get_header (subject msg) (lit "No subject").
Definition from_line (msg : message) : pystr :=
  lit "From: " ++ get_header (sender msg) (lit "Unknown").
Definition content_type_line (msg : message) : pystr :=
  lit "Content-Type: " ++ get_content_type (root msg).
Definition saved_html_line : pystr :=
  [0x2705] ++ lit " Saved HTML to: extracted-email.html".
Definition saved_text_line : pystr :=
  [0x2705] ++ lit " Saved text to: extracted-email.txt".
Definition size_line (n : nat) : pystr :=
  lit "   Size: " ++ decimal n ++ lit " bytes".
Definition no_html_line : pystr :=
  [0x26A0; 0xFE0F] ++ lit "  No HTML part found".
Definition no_text_line : pystr :=
  [0x26A0; 0xFE0F] ++ lit "  No text part found".
Definition next_step_line : pystr := lit "Next step:".
Definition hint_line : pystr :=
  lit "  ./test-email.sh extracted-email.html extracted-email.txt".

(** The body of the loop of lines 31-37, on the pair
    [(html_content, text_content)]. *)
Definition classify (p : part) (st : pyval * pyval) : result (pyval * pyval) :=
  let content_type := get_content_type p in
  if str_eqb content_type text_html then
    match get_content p with
    | Ok v => Ok (v, st.2)
    | Raise e => Raise e
    end
  else if str_eqb content_type text_plain then
    match get_content p with
    | Ok v => Ok (st.1, v)
    | Raise e => Raise e
    end
  else Ok st.

(** [for part in parts: ...] *)
Fixpoint for_each_part (parts : list part) (st : pyval * pyval)
  : result (pyval * pyval) :=
  match parts with
  | [] => Ok st
  | p :: parts' =>
      match classify p st with
      | Ok st' => for_each_part parts' st'
      | Raise e => Raise e
      end
  end.

(** Lines 27-44: the values of [html_content] and [text_content]. *)
Definition extract (msg : part) : result (pyval * pyval) :=
  if is_multipart msg then
    for_each_part (walk msg) (PNone, PNone)
  else if str_eqb (get_content_type msg) text_html then
    match get_content msg with
    | Ok v => Ok (v, PNone)
    | Raise e => Raise e
    end
  else
    match get_content msg with
    | Ok v => Ok (PNone, v)
    | Raise e => Raise e
    end.

(** Lines 47-53, and lines 55-61 with the other file and messages. *)
Definition save (v : pyval) (path : string) (saved absent : pystr) : M unit :=
  if truthy v then
    open_write path ;;
    write path v ;;
    print saved ;;
    n <- lift (len v) ;;
    print (size_line n)
  else
    print absent.

(** Lines 46-65, on the values of [(html_content, text_content)]. *)
Definition output (st : pyval * pyval) : M unit :=
  save st.1 html_file saved_html_line no_html_line ;;
  save st.2 text_file saved_text_line no_text_line ;;
  print [] ;;
  print next_step_line ;;
  print hint_line.

(** Lines 21-65: all that follows parsing. *)
Definition process (msg : message) : M unit :=
  print (email_line msg) ;;
  print (from_line msg) ;;
  print (content_type_line msg) ;;
  print [] ;;
  st <- lift (extract (root msg)) ;;
  output st.

Section Script.

(** [email.message_from_file(_, policy=policy.default)] on the text
    read from the file: the message, or the exception the parser raises
    (it raises [IndexError] on some malformed header fields). *)
Variable message_from_file : pystr -> result message.

Definition script (argv : list string) : M unit :=
  if (length argv <? 2)%nat then
    print usage_line ;;
    sys_exit 1
  else
    let email_file := nth 1 argv EmptyString in
    text <- read_text email_file ;;
    msg <- lift (message_from_file text) ;;
    process msg.

(** A run: the arguments and the files it starts from; what it returns
    and the world it leaves. *)
Definition main (argv : list string) (fs : gmap string bytes)
  : result unit * world :=
  script argv (initial fs).

(** The run is given the path of a file that exists, and the parser
    makes [msg] of what is read from it. *)
Definition reads (argv : list string) (fs : gmap string bytes)
  (msg : message) : Prop :=
  exists path data,
    argv !! 1%nat = Some path /\ fs !! path = Some data /\
    message_from_file (universal_newlines (Utf8.decode_ignore data))
    = Ok msg.

End Script.

(** The exit status of the interpreter: 0 at the end of the script, the
    argument of [sys.exit], and 1 after an uncaught exception. *)
Definition exit_status (r : result unit) : Z :=
  match r with
  | Ok _ => 0
  | Raise (SystemExit code) => code
  | Raise _ => 1
  end.

(** ** Vocabulary of the specification *)

(** The lines printed before the extraction, and after the two reports. *)
Definition header_lines (msg : message) : list pystr :=
  [email_line msg; from_line msg; content_type_line msg; []].

Definition closing_lines : list pystr :=
  [[]; next_step_line; hint_line].

(** The parts of a message with a given content type, in the order of
    the walk (depth first, in document order). *)
Definition parts_of_type (ct : pystr) (msg : part) : list part :=
  filter (fun p => get_content_type p = ct) (walk msg).

(** A value the output phase handles without raising: [None], or a
    [str] that the strict encoder accepts. *)
Definition good (v : pyval) : Prop :=
  v = PNone \/ exists s b, v = PStr s /\ Utf8.encode s = Some b.

(** A part whose content can be written: [get_content] returns such a
    [str]. *)
Definition writable (p : part) : Prop :=
  exists s b, get_content p = Ok (PStr s) /\ Utf8.encode s = Some b.

(** What the loop leaves in a variable: the content of the last part of
    the type, or the initial value when there is none. *)
Definition value (p : part) : pyval :=
  match get_content p with
  | Ok v => v
  | Raise _ => PNone
  end.

Definition retained (ct : pystr) (parts : list part) (init : pyval) : pyval :=
  match last (filter (fun p => get_content_type p = ct) parts) with
  | Some p => value p
  | None => init
  end.

(** The effects of the output phase for a good value: the lines of the
    report, the content of the file, and the path opened. *)
Definition report (saved absent : pystr) (v : pyval) : list pystr :=
  match v with
  | PStr (c :: s) => [saved; size_line (length (c :: s))]
  | _ => [absent]
  end.

Definition stored (path : string) (v : pyval) (fs : gmap string bytes)
  : gmap string bytes :=
  match v with
  | PStr (c :: s) =>
      match Utf8.encode (c :: s) with
      | Some b => <[path := b]> fs
      | None => fs
      end
  | _ => fs
  end.

Definition touched (path : string) (v : pyval) : list string :=
  match v with
  | PStr (_ :: _) => [path]
  | _ => []
  end.

(** Two worlds that show the same output and the same decisions, and
    hold the same contents in the files written so far. *)
Definition agree (w1 w2 : world) : Prop :=
  stdout w1 = stdout w2 /\ opened w1 = opened w2 /\
  forall path, path ∈ opened w1 -> files w1 !! path = files w2 !! path.

(** A statement that does not depend on what the files held before. *)
Definition oblivious {A} (c : M A) : Prop :=
  forall w1 w2, agree w1 w2 ->
    (c w1).1 = (c w2).1 /\ agree (c w1).2 (c w2).2.

(** A statement that changes no file outside [allowed], opens none
    outside it, and only adds lines to the output. *)
Definition confined {A} (allowed : list string) (c : M A) : Prop :=
  forall w,
    (forall path, path ∉ allowed -> files (c w).2 !! path = files w !! path) /\
    (forall path, path ∈ opened (c w).2 -> path ∈ opened w \/ path ∈ allowed) /\
    stdout w `prefix_of` stdout (c w).2.

(** ** Sample runs *)

Module Samples.
Definition program : string := "extract-email-parts.py".
Definition mail : string := "email.txt".
Definition argv : list string := [program; mail].
Definition fs : gmap string bytes := {[ mail := [] ]}.
Definition parsed (msg : message) : pystr -> result message :=
  fun _ => Ok msg.

Definition alternative (parts : list part) : message :=
  Message (Some (lit "Your order")) (Some (lit "shop@example.com"))
    (Multi (lit "multipart/alternative") (Raise KeyError) parts).
Definition single (ct : pystr) (c : result pyval) : message :=
  Message (Some (lit "Your order")) None (Leaf ct c).

Definition two_html : message :=
  alternative [Leaf text_html (Ok (PStr (lit "A")));
               Leaf text_html (Ok (PStr (lit "B")))].
Definition html_and_text : message :=
  alternative [Leaf text_plain (Ok (PStr (lit "Hi")));
               Leaf text_html (Ok (PStr (lit "<p>Hi</p>")))].
Definition empty_html_and_text : message :=
  alternative [Leaf text_plain (Ok (PStr (lit "Hi")));
               Leaf text_html (Ok (PStr []))].
Definition image_only : message :=
  alternative [Leaf (lit "image/png") (Ok (PBytes [137; 80; 78; 71]))].
Definition two_text : message :=
  alternative [Leaf text_plain (Ok (PStr (lit "A")));
               Leaf text_plain (Ok (PStr (lit "B")))].
Definition empty_plain : message := single text_plain (Ok (PStr [])).
Definition csv : message := single (lit "text/csv") (Ok (PStr (lit "a,b"))).
Definition octet_stream : message :=
  single (lit "application/octet-stream") (Ok (PBytes [0; 1; 2])).
Definition html_accent : message := single text_html (Ok (PStr [233])).
Definition html_page : message :=
  single text_html (Ok (PStr (lit "<p>Hi</p>"))).
Definition empty_html : message := single text_html (Ok (PStr [])).

Definition all : list message :=
  [two_html; html_and_text; empty_html_and_text; image_only; two_text;
   empty_plain; csv; octet_stream; html_accent; html_page; empty_html].
End Samples.

Module MoreSamples.
Import Samples.
Definition unknown_charset : message := single text_plain (Raise LookupError).
Definition broken_alternative : message :=
  alternative [Leaf text_plain (Ok (PStr (lit "Hi")));
               Leaf text_html (Raise LookupError);
               Leaf text_html (Ok (PStr (lit "<p>Hi</p>")))].
Definition surrogate_html : message :=
  alternative [Leaf text_plain (Ok (PStr (lit "Hi")));
               Leaf text_html (Ok (PStr [0xD800]))].
Definition surrogate_text : message :=
  alternative [Leaf text_plain (Ok (PStr [0xD800]));
               Leaf text_html (Ok (PStr (lit "<p>Hi</p>")))].
Definition with_attachment : message :=
  alternative [Leaf text_plain (Ok (PStr (lit "Hi")));
               Leaf (lit "image/png") (Ok (PBytes [137; 80; 78; 71]));
               Leaf text_html (Ok (PStr (lit "<p>Hi</p>")))].
Definition png : message :=
  single (lit "image/png") (Ok (PBytes [137; 80; 78; 71])).

(** A file of ASCII bytes on which the library's parser raises
    [IndexError], at a parameter of the Content-Type field whose name
    ends with an asterisk; and a parser that does so on its text. *)
Definition bad_parameter : pystr :=
  lit "Content-Type: text/plain; a*" ++ [10; 10] ++ lit "b".
Definition parser_on_bad_parameter : pystr -> result message :=
  fun text =>
    if bool_decide (text = bad_parameter) then Raise IndexError
    else Ok html_page.

(** A file with two bytes that are part of no character, and a line
    that ends with a carriage return and a line feed. *)
Definition damaged : bytes :=
  [0x48; 0xFF; 0xC3; 0xA9; 0xE2; 0x0D; 0x0A; 0x69].
End MoreSamples.

(** * Properties *)

(** ** The UTF-8 codec *)

Module Utf8Facts.
Import Utf8.

Ltac euclid := zify; Z.to_euclidean_division_equations; lia.

(** Settle the comparisons of the goal from the bounds in the context,
    and split on those the bounds leave open. *)
Ltac decide_tests :=
  repeat match goal with
    | |- context [N.ltb ?a ?b] =>
        first [ rewrite (proj2 (N.ltb_lt a b)) by lia
              | rewrite (proj2 (N.ltb_ge a b)) by lia
              | destruct (N.ltb_spec a b) ]
    | |- context [N.leb ?a ?b] =>
        first [ rewrite (proj2 (N.leb_le a b)) by lia
              | rewrite (proj2 (N.leb_gt a b)) by lia
              | destruct (N.leb_spec a b) ]
    | |- context [N.eqb ?a ?b] =>
        first [ rewrite (proj2 (N.eqb_eq a b)) by lia
              | rewrite (proj2 (N.eqb_neq a b)) by lia
              | destruct (N.eqb_spec a b) ]
    | _ => progress cbn [andb orb negb]
    end.

(** The digits of a code point in base 64, and back. *)
Lemma digits2 c :
  exists q r, c / 0x40 = q /\ c mod 0x40 = r /\
              c = q * 0x40 + r /\ r < 0x40.
Proof. eexists _, _. repeat split; euclid. Qed.

Lemma digits3 c :
  exists q r1 r0,
    c / 0x1000 = q /\ (c / 0x40) mod 0x40 = r1 /\ c mod 0x40 = r0 /\
    c = q * 0x1000 + r1 * 0x40 + r0 /\ r1 < 0x40 /\ r0 < 0x40.
Proof. eexists _, _, _. repeat split; euclid. Qed.

Lemma digits4 c :
  exists q r2 r1 r0,
    c / 0x40000 = q /\ (c / 0x1000) mod 0x40 = r2 /\
    (c / 0x40) mod 0x40 = r1 /\ c mod 0x40 = r0 /\
    c = q * 0x40000 + r2 * 0x1000 + r1 * 0x40 + r0 /\
    r2 < 0x40 /\ r1 < 0x40 /\ r0 < 0x40.
Proof. eexists _, _, _, _. repeat split; euclid. Qed.

Lemma undigits2 q r0 c :
  r0 < 0x40 -> c = q * 0x40 + r0 -> c / 0x40 = q /\ c mod 0x40 = r0.
Proof. intros. repeat split; euclid. Qed.

Lemma undigits3 q r1 r0 c :
  r1 < 0x40 -> r0 < 0x40 -> c = q * 0x1000 + r1 * 0x40 + r0 ->
  c / 0x1000 = q /\ (c / 0x40) mod 0x40 = r1 /\ c mod 0x40 = r0.
Proof. intros. repeat split; euclid. Qed.

Lemma undigits4 q r2 r1 r0 c :
  r2 < 0x40 -> r1 < 0x40 -> r0 < 0x40 ->
  c = q * 0x40000 + r2 * 0x1000 + r1 * 0x40 + r0 ->
  c / 0x40000 = q /\ (c / 0x1000) mod 0x40 = r2 /\
  (c / 0x40) mod 0x40 = r1 /\ c mod 0x40 = r0.
Proof. intros. repeat split; euclid. Qed.

Lemma cont_bounds b : cont b = true -> 0x80 <= b < 0xC0.
Proof.
  unfold cont. intros [H1 H2]%andb_prop.
  apply N.leb_le in H1. apply N.ltb_lt in H2. lia.
Qed.

Lemma second_ok_bounds b0 b1 :
  second_ok b0 b1 = true ->
  0x80 <= b1 < 0xC0 /\ (b0 = 0xE0 -> 0xA0 <= b1) /\ (b0 = 0xED -> b1 < 0xA0)
  /\ (b0 = 0xF0 -> 0x90 <= b1) /\ (b0 = 0xF4 -> b1 < 0x90).
Proof.
  unfold second_ok. intros H.
  repeat match type of H with
    | context [N.eqb ?a ?b] => destruct (N.eqb_spec a b)
    end;
    try (apply cont_bounds in H; lia);
    apply andb_prop in H as [H1 H2];
    apply N.leb_le in H1; apply N.ltb_lt in H2; lia.
Qed.

(** What was encoded is read back, whatever follows. *)
Lemma decode_encode_char c b rest :
  encode_char c = Some b ->
  decode_ignore (b ++ rest) = c :: decode_ignore rest.
Proof.
  unfold encode_char. intros H.
  destruct (N.ltb_spec c 0x80).
  { injection H as <-. cbn [app decode_ignore]. by decide_tests. }
  destruct (N.ltb_spec c 0x800).
  { destruct (digits2 c) as (q & r & E1 & E2 & ? & ?).
    rewrite E1, E2 in H. clear E1 E2. injection H as <-.
    cbn [app decode_ignore]. unfold cont. decide_tests; f_equal; lia. }
  destruct (N.ltb_spec c 0x10000).
  { destruct (digits3 c) as (q & r1 & r0 & E1 & E2 & E3 & ? & ? & ?).
    rewrite E1, E2, E3 in H. clear E1 E2 E3.
    destruct (N.leb_spec 0xD800 c), (N.ltb_spec c 0xE000);
      cbn [andb] in H; try discriminate; injection H as <-;
      cbn [app decode_ignore]; unfold second_ok, cont;
      decide_tests; f_equal; lia. }
  destruct (N.ltb_spec c 0x110000); [|discriminate].
  destruct (digits4 c)
    as (q & r2 & r1 & r0 & E1 & E2 & E3 & E4 & ? & ? & ? & ?).
  rewrite E1, E2, E3, E4 in H. clear E1 E2 E3 E4. injection H as <-.
  cbn [app decode_ignore]. unfold second_ok, cont.
  decide_tests; f_equal; lia.
Qed.

Lemma decode_encode s : forall b rest,
  encode s = Some b -> decode_ignore (b ++ rest) = s ++ decode_ignore rest.
Proof.
  induction s as [|c s IH]; cbn [encode]; intros b rest H.
  - injection H as <-. reflexivity.
  - destruct (encode_char c) as [bc|] eqn:Hc; [|discriminate].
    destruct (encode s) as [bs|] eqn:Hs; [|discriminate].
    injection H as <-. rewrite <- app_assoc.
    rewrite (decode_encode_char _ _ _ Hc), (IH _ _ eq_refl). reflexivity.
Qed.

(** The code point read from a well-formed sequence encodes to it. *)
Lemma encode_char_1 b0 :
  (b0 <? 0x80) = true -> encode_char b0 = Some [b0].
Proof. unfold encode_char. intros ->. reflexivity. Qed.

Lemma encode_char_2 b0 b1 :
  (b0 <? 0xC2) = false -> (b0 <? 0xE0) = true -> cont b1 = true ->
  encode_char ((b0 - 0xC0) * 0x40 + (b1 - 0x80)) = Some [b0; b1].
Proof.
  intros H0%N.ltb_ge H1%N.ltb_lt H2%cont_bounds.
  set (c := (b0 - 0xC0) * 0x40 + (b1 - 0x80)).
  destruct (undigits2 (b0 - 0xC0) (b1 - 0x80) c) as (Eq & E0);
    [lia | reflexivity |].
  assert (0x80 <= c < 0x800) by lia.
  unfold encode_char. rewrite Eq, E0. clearbody c.
  decide_tests. do 2 f_equal; [lia | f_equal; lia].
Qed.

Lemma encode_char_3 b0 b1 b2 :
  (b0 <? 0xE0) = false -> (b0 <? 0xF0) = true ->
  second_ok b0 b1 = true -> cont b2 = true ->
  encode_char ((b0 - 0xE0) * 0x1000 + (b1 - 0x80) * 0x40 + (b2 - 0x80))
  = Some [b0; b1; b2].
Proof.
  intros H0%N.ltb_ge H1%N.ltb_lt H2%second_ok_bounds H3%cont_bounds.
  set (c := (b0 - 0xE0) * 0x1000 + (b1 - 0x80) * 0x40 + (b2 - 0x80)).
  destruct (undigits3 (b0 - 0xE0) (b1 - 0x80) (b2 - 0x80) c)
    as (Eq & E1 & E0); [lia | lia | reflexivity |].
  assert (0x800 <= c < 0x10000) by lia.
  assert (c < 0xD800 \/ 0xE000 <= c) as Hs by lia.
  unfold encode_char. rewrite Eq, E1, E0. clearbody c.
  destruct Hs; decide_tests;
    (do 2 f_equal; [lia | f_equal; [lia | f_equal; lia]]).
Qed.

Lemma encode_char_4 b0 b1 b2 b3 :
  (b0 <? 0xF0) = false -> (b0 <? 0xF5) = true ->
  second_ok b0 b1 = true -> cont b2 = true -> cont b3 = true ->
  encode_char ((b0 - 0xF0) * 0x40000 + (b1 - 0x80) * 0x1000
               + (b2 - 0x80) * 0x40 + (b3 - 0x80))
  = Some [b0; b1; b2; b3].
Proof.
  intros H0%N.ltb_ge H1%N.ltb_lt H2%second_ok_bounds
         H3%cont_bounds H4%cont_bounds.
  set (c := (b0 - 0xF0) * 0x40000 + (b1 - 0x80) * 0x1000
            + (b2 - 0x80) * 0x40 + (b3 - 0x80)).
  destruct (undigits4 (b0 - 0xF0) (b1 - 0x80) (b2 - 0x80) (b3 - 0x80) c)
    as (Eq & E2 & E1 & E0); [lia | lia | lia | reflexivity |].
  assert (0x10000 <= c < 0x110000) by lia.
  unfold encode_char. rewrite Eq, E2, E1, E0. clearbody c.
  decide_tests.
  do 2 f_equal; [lia | f_equal; [lia | f_equal; [lia | f_equal; lia]]].
Qed.

Lemma kept_nil data : kept_in [] data.
Proof. exists []. split; [reflexivity | apply sublist_nil_l]. Qed.

Lemma kept_skip out b data : kept_in out data -> kept_in out (b :: data).
Proof.
  intros (k & ? & ?). exists k. split; [done | by apply sublist_cons].
Qed.

Lemma kept_char c bs out data :
  encode_char c = Some bs -> kept_in out data ->
  kept_in (c :: out) (bs ++ data).
Proof.
  intros Hc (k & Hk & Hs). exists (bs ++ k). split.
  - cbn [encode]. rewrite Hc, Hk. reflexivity.
  - by apply sublist_app.
Qed.

Lemma decode_ignore_kept_le n : forall data,
  (length data <= n)%nat -> kept_in (decode_ignore data) data.
Proof.
  induction n as [|n IH]; intros [|b0 r0] Hn;
    try apply kept_nil; cbn [length] in Hn; [lia|].
  cbn [decode_ignore].
  repeat case_match; subst; cbn [length] in Hn;
    repeat match goal with
      | |- kept_in [] _ => apply kept_nil
      | |- kept_in (decode_ignore ?r) ?r => apply IH; cbn [length]; lia
      | |- kept_in (decode_ignore _) (_ :: _) => apply kept_skip
      | |- kept_in (_ :: decode_ignore ?r) (?a :: ?r) =>
          change (a :: r) with ([a] ++ r);
          apply kept_char; [by apply encode_char_1|]
      | |- kept_in (_ :: decode_ignore ?r) (?a :: ?b :: ?r) =>
          change (a :: b :: r) with ([a; b] ++ r);
          apply kept_char; [by apply encode_char_2|]
      | |- kept_in (_ :: decode_ignore ?r) (?a :: ?b :: ?c :: ?r) =>
          change (a :: b :: c :: r) with ([a; b; c] ++ r);
          apply kept_char; [by apply encode_char_3|]
      | |- kept_in (_ :: decode_ignore ?r) (?a :: ?b :: ?c :: ?d :: ?r) =>
          change (a :: b :: c :: d :: r) with ([a; b; c; d] ++ r);
          apply kept_char; [by apply encode_char_4|]
      end.
Qed.

(** Decoding with [errors='ignore'] only leaves bytes out. *)
Lemma decode_ignore_kept data : kept_in (decode_ignore data) data.
Proof. by apply (decode_ignore_kept_le (length data)). Qed.

(** An encoded text is at least as long as the text. *)
Lemma encode_char_length c b :
  encode_char c = Some b -> (1 <= length b)%nat.
Proof.
  unfold encode_char. intros H.
  repeat case_match; try discriminate; injection H as <-; cbn; lia.
Qed.

Lemma encode_length s : forall b,
  encode s = Some b -> (length s <= length b)%nat.
Proof.
  induction s as [|c s IH]; cbn [encode]; intros b H.
  - injection H as <-. reflexivity.
  - destruct (encode_char c) as [bc|] eqn:Hc; [|discriminate].
    destruct (encode s) as [bs|] eqn:Hs; [|discriminate].
    injection H as <-. rewrite length_app. cbn [length].
    pose proof (encode_char_length _ _ Hc). pose proof (IH _ eq_refl). lia.
Qed.

Lemma encode_nil_inv s : encode s = Some [] -> s = [].
Proof.
  intros H. apply encode_length in H. destruct s; [done | cbn in H; lia].
Qed.

End Utf8Facts.

(** ** The loop over the parts *)

Section Loop.

Lemma text_types_differ : text_html <> text_plain.
Proof. discriminate. Qed.

Lemma str_eqb_eq a b : str_eqb a b = true <-> a = b.
Proof. unfold str_eqb. apply bool_decide_eq_true. Qed.

Lemma str_eqb_refl a : str_eqb a a = true.
Proof. by apply str_eqb_eq. Qed.

Lemma str_eqb_ne a b : a <> b -> str_eqb a b = false.
Proof. unfold str_eqb. apply bool_decide_eq_false. Qed.

Lemma retained_cons_same ct p parts init :
  get_content_type p = ct ->
  retained ct (p :: parts) init = retained ct parts (value p).
Proof.
  intros Hp. unfold retained. rewrite filter_cons_True by done.
  rewrite last_cons. by destruct (last _).
Qed.

Lemma retained_cons_other ct p parts init :
  get_content_type p <> ct ->
  retained ct (p :: parts) init = retained ct parts init.
Proof. intros Hp. unfold retained. by rewrite filter_cons_False. Qed.

Lemma classify_other p st :
  get_content_type p <> text_html -> get_content_type p <> text_plain ->
  classify p st = Ok st.
Proof.
  intros H1 H2. unfold classify. by rewrite !str_eqb_ne.
Qed.

Lemma for_each_part_ok parts : forall h t,
  Forall (fun p => get_content_type p = text_html \/
                   get_content_type p = text_plain ->
                   exists v, get_content p = Ok v) parts ->
  for_each_part parts (h, t)
  = Ok (retained text_html parts h, retained text_plain parts t).
Proof.
  induction parts as [|p parts IH]; intros h t Hok; [reflexivity|].
  apply Forall_cons in Hok as [Hp Hok]. cbn [for_each_part].
  unfold classify. cbn [fst snd].
  destruct (decide (get_content_type p = text_html)) as [E|N1].
  - destruct Hp as [v Hv]; [by left|].
    rewrite E, str_eqb_refl, Hv, IH by done.
    rewrite (retained_cons_same text_html) by done.
    rewrite retained_cons_other by (rewrite E; discriminate).
    unfold value. by rewrite Hv.
  - rewrite (str_eqb_ne _ _ N1).
    destruct (decide (get_content_type p = text_plain)) as [E|N2].
    + destruct Hp as [v Hv]; [by right|].
      rewrite E, str_eqb_refl, Hv, IH by done.
      rewrite (retained_cons_same text_plain) by done.
      rewrite retained_cons_other by done.
      unfold value. by rewrite Hv.
    + rewrite (str_eqb_ne _ _ N2), IH by done.
      by rewrite !retained_cons_other.
Qed.

Lemma retained_none ct parts init :
  Forall (fun p => get_content_type p <> ct) parts ->
  retained ct parts init = init.
Proof.
  induction 1 as [|p parts Hp _ IH]; [reflexivity|].
  by rewrite retained_cons_other.
Qed.

Lemma retained_last ct pre p post init :
  get_content_type p = ct ->
  Forall (fun q => get_content_type q <> ct) post ->
  retained ct (pre ++ p :: post) init = value p.
Proof.
  intros Hp Hpost. induction pre as [|q pre IH] in init |- *.
  - cbn [app]. rewrite retained_cons_same by done.
    by apply retained_none.
  - cbn [app]. destruct (decide (get_content_type q = ct)).
    + rewrite retained_cons_same by done. apply IH.
    + rewrite retained_cons_other by done. apply IH.
Qed.

End Loop.

(** ** The statements of the script *)

Section Statements.

Lemma truthy_str s : truthy (PStr s) = true <-> s <> [].
Proof. destruct s; cbn; split; (done || congruence). Qed.

Lemma save_absent v path saved absent w :
  truthy v = false ->
  save v path saved absent w
  = (Ok tt, World (stdout w ++ [absent]) (files w) (opened w)).
Proof. unfold save. by intros ->. Qed.

Lemma save_text c s b path saved absent w :
  Utf8.encode (c :: s) = Some b ->
  save (PStr (c :: s)) path saved absent w
  = (Ok tt, World (stdout w ++ [saved; size_line (length (c :: s))])
                  (<[path := b]> (files w)) (opened w ++ [path])).
Proof.
  intros Hb. unfold save, bind, open_write, write, print, lift.
  cbn [truthy length Nat.eqb negb len]. rewrite Hb.
  cbn [stdout files opened]. rewrite lookup_insert_eq. cbn [default app].
  by rewrite insert_insert_eq, <- app_assoc.
Qed.

Lemma save_unencodable c s path saved absent w :
  Utf8.encode (c :: s) = None ->
  save (PStr (c :: s)) path saved absent w
  = (Raise UnicodeEncodeError,
     World (stdout w) (<[path := []]> (files w)) (opened w ++ [path])).
Proof.
  intros Hb. unfold save, bind, open_write, write, raise.
  cbn [truthy length Nat.eqb negb]. by rewrite Hb.
Qed.

Lemma save_bytes c b path saved absent w :
  save (PBytes (c :: b)) path saved absent w
  = (Raise TypeError,
     World (stdout w) (<[path := []]> (files w)) (opened w ++ [path])).
Proof. reflexivity. Qed.

Lemma save_good v path saved absent w :
  good v ->
  save v path saved absent w
  = (Ok tt, World (stdout w ++ report saved absent v)
                  (stored path v (files w)) (opened w ++ touched path v)).
Proof.
  intros [-> | (s & b & -> & Hb)].
  - rewrite save_absent by done. cbn. by rewrite app_nil_r.
  - destruct s as [|c s].
    + rewrite save_absent by done. cbn. by rewrite app_nil_r.
    + rewrite (save_text _ _ _ _ _ _ _ Hb). cbn [report stored touched].
      by rewrite Hb.
Qed.

Lemma output_good h t w :
  good h -> good t ->
  output (h, t) w
  = (Ok tt,
     World (stdout w ++ report saved_html_line no_html_line h
                     ++ report saved_text_line no_text_line t
                     ++ closing_lines)
           (stored text_file t (stored html_file h (files w)))
           (opened w ++ touched html_file h ++ touched text_file t)).
Proof.
  intros Hh Ht. unfold output, bind. cbn [fst snd].
  rewrite (save_good h) by done. rewrite (save_good t) by done.
  unfold print, closing_lines. cbn [stdout files opened].
  by rewrite <- !app_assoc.
Qed.

Lemma process_extract msg w :
  process msg w
  = match extract (root msg) with
    | Ok st => output st (World (stdout w ++ header_lines msg)
                                (files w) (opened w))
    | Raise e => (Raise e, World (stdout w ++ header_lines msg)
                                 (files w) (opened w))
    end.
Proof.
  unfold process, bind, print, lift, header_lines.
  cbn [stdout files opened]. rewrite <- !app_assoc. cbn [app].
  by destruct (extract (root msg)).
Qed.

Lemma process_good msg h t fs :
  extract (root msg) = Ok (h, t) -> good h -> good t ->
  process msg (initial fs)
  = (Ok tt,
     World (header_lines msg ++ report saved_html_line no_html_line h
                             ++ report saved_text_line no_text_line t
                             ++ closing_lines)
           (stored text_file t (stored html_file h fs))
           (touched html_file h ++ touched text_file t)).
Proof.
  intros He Hh Ht. rewrite process_extract, He, output_good by done.
  reflexivity.
Qed.

Lemma main_reads mff argv fs msg :
  reads mff argv fs msg -> main mff argv fs = process msg (initial fs).
Proof.
  intros (path & data & Hpath & Hdata & Hmsg).
  unfold main, script.
  pose proof (lookup_lt_Some _ _ _ Hpath) as Hlen.
  rewrite (proj2 (Nat.ltb_ge _ _)) by lia.
  rewrite (nth_lookup_Some _ _ _ _ Hpath).
  unfold bind, read_text, lift. cbn [files initial].
  by rewrite Hdata, Hmsg.
Qed.

Lemma extract_multipart p :
  is_multipart p = true ->
  Forall (fun q => exists v, get_content q = Ok v)
         (parts_of_type text_html p) ->
  Forall (fun q => exists v, get_content q = Ok v)
         (parts_of_type text_plain p) ->
  extract p = Ok (retained text_html (walk p) PNone,
                  retained text_plain (walk p) PNone).
Proof.
  intros Hm Hh Ht. unfold extract. rewrite Hm.
  apply for_each_part_ok. apply Forall_forall. intros q Hq [E|E].
  - eapply (proj1 (Forall_forall _ _) Hh). by apply list_elem_of_filter.
  - eapply (proj1 (Forall_forall _ _) Ht). by apply list_elem_of_filter.
Qed.

End Statements.

(** ** Independence from the state of the directory *)

Section Determinism.

Lemma agree_print w1 w2 line :
  agree w1 w2 -> agree (print line w1).2 (print line w2).2.
Proof.
  intros (Ho & Hl & Hf). unfold print. cbn [snd]. repeat split;
    cbn [stdout files opened]; [by rewrite Ho | done | done].
Qed.

Lemma agree_open_write w1 w2 path :
  agree w1 w2 -> agree (open_write path w1).2 (open_write path w2).2.
Proof.
  intros (Ho & Hl & Hf). unfold open_write. cbn [snd]. repeat split;
    cbn [stdout files opened]; [done | by rewrite Hl |].
  intros path' [Hin | ->%list_elem_of_singleton]%elem_of_app.
  - destruct (decide (path = path')) as [->|Hne];
      [by rewrite !lookup_insert_eq|].
    rewrite !lookup_insert_ne by done. by apply Hf.
  - by rewrite !lookup_insert_eq.
Qed.

Lemma agree_write w1 w2 path v :
  agree w1 w2 -> path ∈ opened w1 ->
  (write path v w1).1 = (write path v w2).1 /\
  agree (write path v w1).2 (write path v w2).2 /\
  path ∈ opened (write path v w1).2.
Proof.
  intros Ha Hin. pose proof Ha as (Ho & Hl & Hf). unfold write.
  destruct v as [|s| |]; try done.
  destruct (Utf8.encode s) as [b|]; [|done].
  cbn [fst snd]. split; [done|]. split; [|done].
  split; [done|]. split; [done|]. cbn [stdout files opened].
  intros path' Hin'. rewrite (Hf path) by done.
  destruct (decide (path = path')) as [->|Hne];
    [by rewrite !lookup_insert_eq|].
  rewrite !lookup_insert_ne by done. by apply Hf.
Qed.

Lemma oblivious_ret {A} (a : A) : oblivious (ret a).
Proof. by intros w1 w2 Ha. Qed.

Lemma oblivious_lift {A} (r : result A) : oblivious (lift r).
Proof. by intros w1 w2 Ha. Qed.

Lemma oblivious_print line : oblivious (print line).
Proof. intros w1 w2 Ha. split; [done | by apply agree_print]. Qed.

Lemma oblivious_bind {A B} (c : M A) (k : A -> M B) :
  oblivious c -> (forall a, oblivious (k a)) ->
  oblivious (x <- c ;; k x).
Proof.
  intros Hc Hk w1 w2 Ha. unfold bind.
  destruct (Hc w1 w2 Ha) as [Hr Ha'].
  destruct (c w1) as [r1 w1'], (c w2) as [r2 w2']. cbn [fst snd] in *.
  subst r2. destruct r1 as [a|e]; [by apply Hk | done].
Qed.

(** Opening a file and writing to it: what the file held does not
    matter. *)
Lemma oblivious_open_write_write path v :
  oblivious (open_write path ;; write path v).
Proof.
  intros w1 w2 Ha. unfold bind.
  pose proof (agree_open_write _ _ path Ha) as Ha'.
  change (open_write path w1) with (Ok tt, (open_write path w1).2).
  change (open_write path w2) with (Ok tt, (open_write path w2).2).
  cbn iota.
  destruct (agree_write _ _ path v Ha') as (Hr & Ha'' & _); [|done].
  cbn [open_write snd opened]. apply elem_of_app. right.
  by apply list_elem_of_singleton.
Qed.

Lemma bind_assoc {A B C} (c : M A) (k : A -> M B) (k' : B -> M C) w :
  (y <- (x <- c ;; k x) ;; k' y) w = (x <- c ;; y <- k x ;; k' y) w.
Proof. unfold bind. by destruct (c w) as [[a|e] w']. Qed.

Lemma oblivious_ext {A} (c c' : M A) :
  (forall w, c w = c' w) -> oblivious c -> oblivious c'.
Proof. intros He Hc w1 w2 Ha. rewrite <- !He. by apply Hc. Qed.

Lemma oblivious_save v path saved absent :
  oblivious (save v path saved absent).
Proof.
  unfold save. destruct (truthy v); [|apply oblivious_print].
  eapply oblivious_ext; [intros w; apply bind_assoc|].
  apply oblivious_bind; [apply oblivious_open_write_write|]. intros _.
  apply oblivious_bind; [apply oblivious_print|]. intros _.
  apply oblivious_bind; [apply oblivious_lift|]. intros n.
  apply oblivious_print.
Qed.

Lemma oblivious_output st : oblivious (output st).
Proof.
  unfold output.
  repeat (apply oblivious_bind; [|intros _]);
    (apply oblivious_save || apply oblivious_print).
Qed.

Lemma oblivious_process msg : oblivious (process msg).
Proof.
  unfold process.
  do 4 (apply oblivious_bind; [apply oblivious_print | intros _]).
  apply oblivious_bind; [apply oblivious_lift|]. intros st.
  apply oblivious_output.
Qed.

Lemma agree_initial fs1 fs2 : agree (initial fs1) (initial fs2).
Proof. repeat split. intros path Hin. by apply elem_of_nil in Hin. Qed.

Lemma main_unfold mff argv fs :
  main mff argv fs
  = if (length argv <? 2)%nat
    then (Raise (SystemExit 1), World [usage_line] fs [])
    else match fs !! nth 1 argv EmptyString with
         | Some data =>
             match mff (universal_newlines (Utf8.decode_ignore data)) with
             | Ok msg => process msg (initial fs)
             | Raise e => (Raise e, initial fs)
             end
         | None => (Raise FileNotFoundError, initial fs)
         end.
Proof.
  unfold main, script. destruct (length argv <? 2)%nat; [reflexivity|].
  unfold bind, read_text, lift. cbn [files initial].
  destruct (fs !! _); [|done]. by destruct (mff _).
Qed.

End Determinism.

(** ** The claims of the specification *)

Section Claims.
Import Samples.

Lemma stored_lookup_ne path path' v (fs : gmap string bytes) :
  path <> path' -> stored path v fs !! path' = fs !! path'.
Proof.
  intros Hne. unfold stored. repeat case_match; try done.
  by rewrite lookup_insert_ne.
Qed.

Lemma stored_lookup_eq path c s b (fs : gmap string bytes) :
  Utf8.encode (c :: s) = Some b ->
  stored path (PStr (c :: s)) fs !! path = Some b.
Proof. intros Hb. unfold stored. rewrite Hb. apply lookup_insert_eq. Qed.

Lemma files_differ : html_file <> text_file.
Proof. discriminate. Qed.

Lemma writable_good p : writable p -> good (value p).
Proof.
  intros (s & b & Hs & Hb). right. exists s, b. unfold value.
  by rewrite Hs.
Qed.

Lemma retained_good ct parts :
  Forall writable (filter (fun p => get_content_type p = ct) parts) ->
  good (retained ct parts PNone).
Proof.
  intros Hw. unfold retained.
  destruct (last _) as [p|] eqn:Hl; [|by left].
  apply writable_good. apply (proj1 (Forall_forall _ _) Hw).
  apply last_Some in Hl as [l' ->]. apply elem_of_app. right.
  apply list_elem_of_singleton. done.
Qed.

Lemma writable_ok parts :
  Forall writable parts ->
  Forall (fun q => exists v, get_content q = Ok v) parts.
Proof.
  intros H. eapply Forall_impl; [exact H|].
  intros p (s & b & Hs & _). eauto.
Qed.

(** A multipart message whose HTML and text parts are all writable:
    the whole run. *)
Lemma multipart_run mff argv fs msg :
  reads mff argv fs msg -> is_multipart (root msg) = true ->
  Forall writable (parts_of_type text_html (root msg)) ->
  Forall writable (parts_of_type text_plain (root msg)) ->
  let h := retained text_html (walk (root msg)) PNone in
  let t := retained text_plain (walk (root msg)) PNone in
  main mff argv fs
  = (Ok tt,
     World (header_lines msg ++ report saved_html_line no_html_line h
                             ++ report saved_text_line no_text_line t
                             ++ closing_lines)
           (stored text_file t (stored html_file h fs))
           (touched html_file h ++ touched text_file t)).
Proof.
  intros Hr Hm Hh Ht h t. rewrite (main_reads _ _ _ _ Hr).
  apply process_good.
  - apply extract_multipart; [done | by apply writable_ok ..].
  - by apply retained_good.
  - by apply retained_good.
Qed.

Lemma retained_last_part ct msg p :
  last (parts_of_type ct msg) = Some p ->
  retained ct (walk msg) PNone = value p.
Proof. unfold retained, parts_of_type. by intros ->. Qed.

(** C1 (as amended): in a multipart message whose HTML and text parts
    can all be written, the body kept and written for each of the two
    types is that of the LAST part of the type in the depth-first walk;
    the parts of the type before it are overwritten.  (It is written
    when it is not empty.) *)
Theorem last_part_wins mff argv fs msg :
  reads mff argv fs msg -> is_multipart (root msg) = true ->
  Forall writable (parts_of_type text_html (root msg)) ->
  Forall writable (parts_of_type text_plain (root msg)) ->
  extract (root msg)
  = Ok (retained text_html (walk (root msg)) PNone,
        retained text_plain (walk (root msg)) PNone) /\
  (forall p c s b,
      last (parts_of_type text_html (root msg)) = Some p ->
      get_content p = Ok (PStr (c :: s)) ->
      Utf8.encode (c :: s) = Some b ->
      files (main mff argv fs).2 !! html_file = Some b) /\
  (forall p c s b,
      last (parts_of_type text_plain (root msg)) = Some p ->
      get_content p = Ok (PStr (c :: s)) ->
      Utf8.encode (c :: s) = Some b ->
      files (main mff argv fs).2 !! text_file = Some b).
Proof.
  intros Hr Hm Hh Ht. rewrite (multipart_run _ _ _ _ Hr Hm Hh Ht).
  cbn [snd files]. split; [|split].
  - apply extract_multipart; [done | by apply writable_ok ..].
  - intros p c s b Hl Hp Hb.
    rewrite stored_lookup_ne by (symmetry; apply files_differ).
    rewrite (retained_last_part _ _ _ Hl). unfold value. rewrite Hp.
    by apply stored_lookup_eq.
  - intros p c s b Hl Hp Hb.
    rewrite (retained_last_part _ _ _ Hl). unfold value. rewrite Hp.
    by apply stored_lookup_eq.
Qed.

Lemma last_part_wins_witness :
  files (main (parsed two_html) argv fs).2 !! html_file = Some [66].
Proof.
  assert (forall p, p ∈ parts_of_type text_html (root two_html) ->
                    writable p) as Hw.
  { intros p Hp. vm_compute in Hp.
    repeat (apply elem_of_cons in Hp as [->|Hp]);
      [by exists (lit "A"), [65] | by exists (lit "B"), [66]
      | by apply elem_of_nil in Hp]. }
  refine (proj1 (proj2 (last_part_wins (parsed two_html) argv fs two_html
             _ eq_refl _ _)) (Leaf text_html (Ok (PStr (lit "B"))))
             66 [] [66] eq_refl eq_refl eq_refl).
  - exists mail, []. by repeat split.
  - by apply Forall_forall.
  - apply Forall_nil. done.
Defined.

(** C1, as stated, fails: of two HTML parts the run writes the second,
    not the first, and likewise of two text parts. *)
Lemma first_part_does_not_win :
  (head (parts_of_type text_html (root two_html))
   = Some (Leaf text_html (Ok (PStr (lit "A")))) /\
   Utf8.encode (lit "A") = Some [65] /\
   files (main (parsed two_html) argv fs).2 !! html_file <> Some [65] /\
   files (main (parsed two_html) argv fs).2 !! html_file = Some [66]) /\
  (head (parts_of_type text_plain (root two_text))
   = Some (Leaf text_plain (Ok (PStr (lit "A")))) /\
   files (main (parsed two_text) argv fs).2 !! text_file <> Some [65] /\
   files (main (parsed two_text) argv fs).2 !! text_file = Some [66]).
Proof. vm_compute. repeat split; congruence. Qed.

Lemma sample_reads msg : reads (parsed msg) argv fs msg.
Proof. exists mail, []. by repeat split. Qed.

(** The sample messages are messages the library can produce. *)
Lemma samples_library_shape :
  forallb (fun msg => library_shape (root msg)) Samples.all = true.
Proof. reflexivity. Qed.

(** C2 (as amended): a multipart message with exactly one HTML part and
    exactly one text part, both with a body that is not empty and can
    be encoded: the run writes both files, each with the UTF-8
    encoding of the body of its part, and exits with status 0. *)
Theorem both_parts_written mff argv fs msg ph pt ch hs ct ts hb tb :
  reads mff argv fs msg -> is_multipart (root msg) = true ->
  parts_of_type text_html (root msg) = [ph] ->
  parts_of_type text_plain (root msg) = [pt] ->
  get_content ph = Ok (PStr (ch :: hs)) ->
  get_content pt = Ok (PStr (ct :: ts)) ->
  Utf8.encode (ch :: hs) = Some hb ->
  Utf8.encode (ct :: ts) = Some tb ->
  main mff argv fs
  = (Ok tt,
     World (header_lines msg
              ++ [saved_html_line; size_line (length (ch :: hs));
                  saved_text_line; size_line (length (ct :: ts))]
              ++ closing_lines)
           (<[text_file := tb]> (<[html_file := hb]> fs))
           [html_file; text_file]).
Proof.
  intros Hr Hm Hph Hpt Hh Ht Hhb Htb.
  rewrite (multipart_run _ _ _ _ Hr Hm).
  - rewrite (retained_last_part _ _ ph) by (by rewrite Hph).
    rewrite (retained_last_part _ _ pt) by (by rewrite Hpt).
    unfold value. rewrite Hh, Ht. cbn [report stored touched].
    by rewrite Hhb, Htb.
  - rewrite Hph. apply Forall_singleton. by exists (ch :: hs), hb.
  - rewrite Hpt. apply Forall_singleton. by exists (ct :: ts), tb.
Qed.

Lemma both_parts_written_witness :
  main (parsed html_and_text) argv fs
  = (Ok tt,
     World (header_lines html_and_text
              ++ [saved_html_line; size_line 9;
                  saved_text_line; size_line 2]
              ++ closing_lines)
           (<[text_file := lit "Hi"]>
              (<[html_file := lit "<p>Hi</p>"]> fs))
           [html_file; text_file]).
Proof.
  apply (both_parts_written (parsed html_and_text) argv fs html_and_text
           (Leaf text_html (Ok (PStr (lit "<p>Hi</p>"))))
           (Leaf text_plain (Ok (PStr (lit "Hi"))))
           60 (lit "p>Hi</p>") 72 (lit "i"));
    solve [reflexivity | apply sample_reads].
Defined.

(** C2, as stated, fails: an HTML part with an empty body is the only
    HTML part, and no HTML file is written. *)
Lemma empty_part_not_written :
  parts_of_type text_html (root empty_html_and_text)
  = [Leaf text_html (Ok (PStr []))] /\
  parts_of_type text_plain (root empty_html_and_text)
  = [Leaf text_plain (Ok (PStr (lit "Hi")))] /\
  Utf8.encode [] = Some [] /\
  (main (parsed empty_html_and_text) argv fs).1 = Ok tt /\
  files (main (parsed empty_html_and_text) argv fs).2 !! html_file
  <> Some [] /\
  opened (main (parsed empty_html_and_text) argv fs).2 = [text_file].
Proof. vm_compute. repeat split; congruence. Qed.

Lemma extract_single ct c :
  extract (Leaf ct c)
  = match c with
    | Ok v => if str_eqb ct text_html then Ok (v, PNone) else Ok (PNone, v)
    | Raise e => Raise e
    end.
Proof.
  unfold extract. cbn [is_multipart get_content_type get_content].
  by destruct (str_eqb ct text_html), c.
Qed.

(** C3 (as amended): a single-part message of any declared type other
    than text/html whose content is a text that is not empty and can
    be encoded: the text is written to extracted-email.txt, whatever
    the type, and nothing else is written. *)
Theorem single_part_text_written mff argv fs msg ct c s b :
  reads mff argv fs msg ->
  root msg = Leaf ct (Ok (PStr (c :: s))) -> ct <> text_html ->
  Utf8.encode (c :: s) = Some b ->
  main mff argv fs
  = (Ok tt,
     World (header_lines msg
              ++ [no_html_line; saved_text_line;
                  size_line (length (c :: s))]
              ++ closing_lines)
           (<[text_file := b]> fs) [text_file]).
Proof.
  intros Hr Hroot Hct Hb. rewrite (main_reads _ _ _ _ Hr).
  rewrite (process_good msg PNone (PStr (c :: s))).
  - cbn [report stored touched]. by rewrite Hb.
  - by rewrite Hroot, extract_single, str_eqb_ne.
  - by left.
  - right. by exists (c :: s), b.
Qed.

Lemma single_part_text_written_witness :
  main (parsed csv) argv fs
  = (Ok tt,
     World (header_lines csv
              ++ [no_html_line; saved_text_line; size_line 3]
              ++ closing_lines)
           (<[text_file := lit "a,b"]> fs) [text_file]).
Proof.
  apply (single_part_text_written (parsed csv) argv fs csv
           (lit "text/csv") 97 (lit ",b"));
    solve [reflexivity | apply sample_reads | discriminate].
Defined.

(** C3, as stated, fails: an empty text/plain body is not written, and
    the [bytes] that [get_content] returns for application/octet-stream
    cannot be written to the text file: the run stops on [TypeError]
    and leaves the file empty. *)
Lemma single_part_not_written :
  ((main (parsed empty_plain) argv fs).1 = Ok tt /\
   files (main (parsed empty_plain) argv fs).2 !! text_file = None /\
   opened (main (parsed empty_plain) argv fs).2 = []) /\
  (library_shape (root octet_stream) = true /\
   (main (parsed octet_stream) argv fs).1 = Raise TypeError /\
   files (main (parsed octet_stream) argv fs).2 !! text_file = Some [] /\
   exit_status (main (parsed octet_stream) argv fs).1 = 1%Z).
Proof. vm_compute. repeat split; congruence. Qed.

(** C4: the size reported is the number of code points of the body,
    not the number of bytes written: for the one-character body
    U+00E9 the run prints "Size: 1 bytes" and writes two bytes. *)
Theorem size_line_counts_code_points :
  main (parsed html_accent) argv fs
  = (Ok tt,
     World (header_lines html_accent
              ++ [saved_html_line; lit "   Size: 1 bytes"; no_text_line]
              ++ closing_lines)
           (<[html_file := [0xC3; 0xA9]]> fs) [html_file]) /\
  length [0xC3; 0xA9] = 2%nat.
Proof. split; [vm_compute|]; reflexivity. Qed.

(** C5: without a path argument the run prints the usage line, exits
    with status 1, and leaves every file as it was. *)
Theorem usage_without_argument mff argv fs :
  (length argv < 2)%nat ->
  main mff argv fs = (Raise (SystemExit 1), World [usage_line] fs []) /\
  exit_status (main mff argv fs).1 = 1%Z /\
  usage_line = lit "Usage: python3 extract-email-parts.py email.txt".
Proof.
  intros Hlen. unfold main, script.
  rewrite (proj2 (Nat.ltb_lt _ _)) by done. by cbn.
Qed.

Lemma usage_without_argument_witness :
  main (parsed html_page) [program] fs
  = (Raise (SystemExit 1), World [usage_line] fs []).
Proof.
  apply (usage_without_argument (parsed html_page) [program] fs).
  cbn. lia.
Defined.

Lemma retained_no_part ct msg :
  parts_of_type ct msg = [] -> retained ct (walk msg) PNone = PNone.
Proof. unfold retained, parts_of_type. by intros ->. Qed.

(** C6: a multipart message with no HTML part and no text part: the run
    ends with status 0, prints both absence lines, and writes no file. *)
Theorem nothing_to_extract mff argv fs msg :
  reads mff argv fs msg -> is_multipart (root msg) = true ->
  parts_of_type text_html (root msg) = [] ->
  parts_of_type text_plain (root msg) = [] ->
  main mff argv fs
  = (Ok tt,
     World (header_lines msg ++ [no_html_line; no_text_line]
                             ++ closing_lines) fs []) /\
  exit_status (main mff argv fs).1 = 0%Z.
Proof.
  intros Hr Hm Hh Ht.
  rewrite (multipart_run _ _ _ _ Hr Hm) by (by rewrite ?Hh, ?Ht).
  by rewrite !retained_no_part.
Qed.

Lemma nothing_to_extract_witness :
  main (parsed image_only) argv fs
  = (Ok tt,
     World (header_lines image_only ++ [no_html_line; no_text_line]
                                    ++ closing_lines) fs []).
Proof.
  apply (nothing_to_extract (parsed image_only) argv fs image_only);
    solve [reflexivity | apply sample_reads].
Defined.

(** C7 (as amended): a single-part text/html message whose body can be
    encoded: extracted-email.txt is not written, the "no text part"
    line is printed, and the HTML file, the only file written, is
    written exactly when the body is not empty. *)
Theorem html_only_message mff argv fs msg s b :
  reads mff argv fs msg ->
  root msg = Leaf text_html (Ok (PStr s)) -> Utf8.encode s = Some b ->
  main mff argv fs
  = (Ok tt,
     World (header_lines msg
              ++ report saved_html_line no_html_line (PStr s)
              ++ [no_text_line] ++ closing_lines)
           (if decide (s = []) then fs else <[html_file := b]> fs)
           (if decide (s = []) then [] else [html_file])) /\
  (text_file ∉ opened (main mff argv fs).2) /\
  files (main mff argv fs).2 !! text_file = fs !! text_file /\
  no_text_line ∈ stdout (main mff argv fs).2.
Proof.
  intros Hr Hroot Hb.
  assert (main mff argv fs
    = (Ok tt,
       World (header_lines msg
                ++ report saved_html_line no_html_line (PStr s)
                ++ [no_text_line] ++ closing_lines)
             (if decide (s = []) then fs else <[html_file := b]> fs)
             (if decide (s = []) then [] else [html_file]))) as ->.
  { rewrite (main_reads _ _ _ _ Hr).
    rewrite (process_good msg (PStr s) PNone).
    - cbn [report stored touched]. destruct s; [done|].
      rewrite Hb, app_nil_r. by rewrite decide_False.
    - by rewrite Hroot, extract_single, str_eqb_refl.
    - right. by exists s, b.
    - by left. }
  split; [done|]. cbn [snd opened files stdout]. repeat split.
  - destruct (decide (s = [])); [apply not_elem_of_nil|].
    rewrite list_elem_of_singleton. discriminate.
  - destruct (decide (s = [])); [done|]. by rewrite lookup_insert_ne.
  - rewrite !elem_of_app. right. right. left.
    by apply list_elem_of_singleton.
Qed.

Lemma html_only_message_witness :
  files (main (parsed html_page) argv fs).2 !! text_file = fs !! text_file.
Proof.
  refine (proj1 (proj2 (proj2 (html_only_message (parsed html_page) argv
            fs html_page (lit "<p>Hi</p>") (lit "<p>Hi</p>")
            _ eq_refl eq_refl)))).
  apply sample_reads.
Defined.

(** C7, as stated, fails: for a single-part text/html message with an
    empty body the HTML file is not written either. *)
Lemma empty_html_not_written :
  root empty_html = Leaf text_html (Ok (PStr [])) /\
  (main (parsed empty_html) argv fs).1 = Ok tt /\
  files (main (parsed empty_html) argv fs).2 !! html_file = None /\
  opened (main (parsed empty_html) argv fs).2 = [].
Proof. vm_compute. repeat split; congruence. Qed.




(** C10: a run is a function of its arguments and of the content of
    the file they name.  Two runs given the same arguments, from two
    states of the directory that hold the same input file, return the
    same result, print the same lines, open the same files for
    writing, and leave the same contents in them. *)
Theorem runs_agree mff argv fs1 fs2 :
  (forall path, argv !! 1%nat = Some path -> fs1 !! path = fs2 !! path) ->
  (main mff argv fs1).1 = (main mff argv fs2).1 /\
  stdout (main mff argv fs1).2 = stdout (main mff argv fs2).2 /\
  opened (main mff argv fs1).2 = opened (main mff argv fs2).2 /\
  (forall path, path ∈ opened (main mff argv fs1).2 ->
     files (main mff argv fs1).2 !! path
     = files (main mff argv fs2).2 !! path).
Proof.
  intros Hsame.
  enough ((main mff argv fs1).1 = (main mff argv fs2).1 /\
          agree (main mff argv fs1).2 (main mff argv fs2).2) as [? ?]
    by done.
  rewrite !main_unfold. destruct (length argv <? 2)%nat eqn:Hlen.
  { split; [done|]. repeat split. intros path Hin.
    by apply elem_of_nil in Hin. }
  apply Nat.ltb_ge in Hlen.
  destruct (lookup_lt_is_Some_2 argv 1%nat) as [path Hpath]; [lia|].
  rewrite (nth_lookup_Some _ _ _ _ Hpath).
  rewrite <- (Hsame _ Hpath). destruct (fs1 !! path) as [data|].
  - destruct (mff _) as [msg|e].
    + apply oblivious_process, agree_initial.
    + split; [done | apply agree_initial].
  - split; [done | apply agree_initial].
Qed.

Lemma runs_agree_witness :
  stdout (main (parsed html_page) argv fs).2
  = stdout (main (parsed html_page) argv
              (<[html_file := [0x6F; 0x6C; 0x64]]> fs)).2.
Proof.
  refine (proj1 (proj2 (runs_agree (parsed html_page) argv fs
            (<[html_file := [0x6F; 0x6C; 0x64]]> fs) _))).
  intros path [= <-]. reflexivity.
Defined.

End Claims.

(** ** Reading the input *)

Module LenientFacts.
Import Utf8 Utf8Facts.

(** An encoding is well formed, and a well-formed sequence encodes a
    character. *)
Lemma encode_char_well_formed c bc :
  encode_char c = Some bc -> well_formed bc = true.
Proof.
  unfold encode_char. intros H.
  destruct (N.ltb_spec c 0x80).
  { injection H as <-. cbn [well_formed]. by decide_tests. }
  destruct (N.ltb_spec c 0x800).
  { destruct (digits2 c) as (q & r & E1 & E2 & ? & ?).
    rewrite E1, E2 in H. clear E1 E2. injection H as <-.
    cbn [well_formed]. unfold cont. by decide_tests. }
  destruct (N.ltb_spec c 0x10000).
  { destruct (digits3 c) as (q & r1 & r0 & E1 & E2 & E3 & ? & ? & ?).
    rewrite E1, E2, E3 in H. clear E1 E2 E3.
    destruct (N.leb_spec 0xD800 c), (N.ltb_spec c 0xE000);
      cbn [andb] in H; try discriminate; try (exfalso; lia);
      injection H as <-; cbn [well_formed]; unfold second_ok, cont;
      decide_tests; done. }
  destruct (N.ltb_spec c 0x110000); [|discriminate].
  destruct (digits4 c)
    as (q & r2 & r1 & r0 & E1 & E2 & E3 & E4 & ? & ? & ? & ?).
  rewrite E1, E2, E3, E4 in H. clear E1 E2 E3 E4. injection H as <-.
  cbn [well_formed]. unfold second_ok, cont. decide_tests; done.
Qed.

Lemma well_formed_encodes bc :
  well_formed bc = true -> exists c, encode_char c = Some bc.
Proof.
  destruct bc as [|b0 [|b1 [|b2 [|b3 [|b4 bc]]]]]; cbn [well_formed];
    try discriminate; intros H;
    repeat (apply andb_prop in H as [H ?]);
    try apply negb_true_iff in H; eexists.
  - by apply encode_char_1.
  - by apply encode_char_2.
  - by apply encode_char_3.
  - by apply encode_char_4.
Qed.

Lemma starts_of_well_formed pre suf :
  well_formed (pre ++ suf) = true -> starts_char pre.
Proof. intros [c Hc]%well_formed_encodes. by exists c, suf. Qed.

Lemma cut_of_well_formed pre suf :
  pre <> [] -> suf <> [] -> well_formed (pre ++ suf) = true -> cut_char pre.
Proof.
  intros Hpre Hsuf [c Hc]%well_formed_encodes. split; [done|].
  by exists c, suf.
Qed.

Lemma well_formed_of_starts pre :
  starts_char pre -> exists suf, well_formed (pre ++ suf) = true.
Proof. intros (c & suf & Hc). exists suf. by eapply encode_char_well_formed. Qed.

(** A second byte for every lead byte of a longer sequence. *)
Definition second_for (b0 : N) : N :=
  if b0 =? 0xE0 then 0xA0 else if b0 =? 0xF0 then 0x90 else 0x80.

Lemma second_ok_second_for b0 : second_ok b0 (second_for b0) = true.
Proof.
  unfold second_ok, second_for.
  destruct (N.eqb_spec b0 0xE0) as [->|]; [done|].
  destruct (N.eqb_spec b0 0xED) as [->|]; [done|].
  destruct (N.eqb_spec b0 0xF0) as [->|]; [done|].
  destruct (N.eqb_spec b0 0xF4) as [->|]; done.
Qed.


Ltac to_props :=
  repeat match goal with
    | H : negb _ = true |- _ => apply negb_true_iff in H
    | H : (_ <? _) = true |- _ => apply N.ltb_lt in H
    | H : (_ <? _) = false |- _ => apply N.ltb_ge in H
    end.

(** No character begins with these bytes: every shape of an encoding
    contradicts a test in the context. *)
Ltac no_start :=
  let c := fresh "c" in
  let suf := fresh "suf" in
  let Hc := fresh "Hc" in
  intros (c & suf & Hc); apply encode_char_well_formed in Hc;
  cbn [app] in Hc;
  destruct suf as [|? [|? [|? [|? ?]]]]; cbn [well_formed] in Hc;
  try discriminate;
  repeat (let H := fresh in apply andb_prop in Hc as [Hc H]);
  to_props; first [congruence | lia].

(** The sequence is well formed: every test is one of the context. *)
Ltac tests_hold :=
  cbn [app well_formed];
  repeat match goal with
    | H : ?t = _ |- context [?t] => rewrite H
    end;
  rewrite ?second_ok_second_for; reflexivity.

Ltac is_cut pre b0 :=
  first
    [ apply (cut_of_well_formed pre [0x80]); [done | done | tests_hold]
    | apply (cut_of_well_formed pre [0x80; 0x80]);
        [done | done | tests_hold]
    | apply (cut_of_well_formed pre [second_for b0; 0x80]);
        [done | done | tests_hold]
    | apply (cut_of_well_formed pre [second_for b0; 0x80; 0x80]);
        [done | done | tests_hold] ].

Ltac drop_cut pre b0 rest :=
  apply (lenient_cut pre rest);
  [ is_cut pre b0
  | let E := fresh in intros ? ? E; try discriminate E;
    injection E as <- <-; no_start
  | ].

Lemma lenient_decode_ignore_le n : forall data,
  (length data <= n)%nat -> lenient data (decode_ignore data).
Proof.
  induction n as [|n IH]; intros [|b0 r0] Hn;
    try apply lenient_nil; cbn [length] in Hn; [lia|].
  cbn [decode_ignore].
  repeat case_match; subst; cbn [length] in Hn.
  all: repeat match goal with
    | |- lenient [] [] => apply lenient_nil
    | |- lenient ?r (decode_ignore ?r) => apply IH; cbn [length]; lia
    | |- lenient (?a :: ?r) (_ :: decode_ignore ?r) =>
        apply (lenient_char _ [a] r); [by apply encode_char_1|]
    | |- lenient (?a :: ?b :: ?r) (_ :: decode_ignore ?r) =>
        apply (lenient_char _ [a; b] r); [by apply encode_char_2|]
    | |- lenient (?a :: ?b :: ?c :: ?r) (_ :: decode_ignore ?r) =>
        apply (lenient_char _ [a; b; c] r); [by apply encode_char_3|]
    | |- lenient (?a :: ?b :: ?c :: ?d :: ?r) (_ :: decode_ignore ?r) =>
        apply (lenient_char _ [a; b; c; d] r); [by apply encode_char_4|]
    | |- lenient (?a :: ?r) (decode_ignore ?r) =>
        first [ apply lenient_stray; [no_start|]
              | drop_cut [a] a r ]
    | |- lenient (?a :: ?b :: ?r) (decode_ignore ?r) =>
        drop_cut [a; b] a r
    | |- lenient (?a :: ?b :: ?c :: ?r) (decode_ignore ?r) =>
        drop_cut [a; b; c] a r
    | |- lenient [?a] [] => drop_cut [a] a (@nil N)
    | |- lenient [?a; ?b] [] => drop_cut [a; b] a (@nil N)
    | |- lenient [?a; ?b; ?c] [] => drop_cut [a; b; c] a (@nil N)
    end.
Qed.

Lemma lenient_decode_ignore data : lenient data (decode_ignore data).
Proof. by apply (lenient_decode_ignore_le (length data)). Qed.


(** The decoder drops a byte that begins no character. *)
Lemma decode_ignore_stray b rest :
  ~ starts_char [b] -> decode_ignore (b :: rest) = decode_ignore rest.
Proof.
  intros Hb. cbn [decode_ignore].
  destruct (b <? 0x80) eqn:H1.
  { exfalso. apply Hb. apply (starts_of_well_formed [b] []). tests_hold. }
  destruct (b <? 0xC2) eqn:H2; [done|].
  destruct (b <? 0xE0) eqn:H3.
  { exfalso. apply Hb. apply (starts_of_well_formed [b] [0x80]). tests_hold. }
  destruct (b <? 0xF0) eqn:H4.
  { exfalso. apply Hb.
    apply (starts_of_well_formed [b] [second_for b; 0x80]). tests_hold. }
  destruct (b <? 0xF5) eqn:H5; [|done].
  exfalso. apply Hb.
  apply (starts_of_well_formed [b] [second_for b; 0x80; 0x80]). tests_hold.
Qed.

(** The decoder drops the beginning of a character that the next byte
    does not continue, and resumes at that byte. *)
Lemma decode_ignore_drop_cut pre rest :
  cut_char pre ->
  (forall b rest', rest = b :: rest' -> ~ starts_char (pre ++ [b])) ->
  decode_ignore (pre ++ rest) = decode_ignore rest.
Proof.
  intros (Hpre & c & suf & Hsuf & Hc) Hnext.
  apply encode_char_well_formed in Hc.
  assert (forall b rest' fill,
            rest = b :: rest' -> well_formed ((pre ++ [b]) ++ fill) = true ->
            False) as Hno.
  { intros b rest' fill -> Hwf. apply (Hnext b rest' eq_refl).
    by apply (starts_of_well_formed _ fill). }
  clear Hnext.
  destruct pre as [|b0 [|b1 [|b2 [|b3 [|b4 pre]]]]]; [done|..];
    destruct suf as [|s0 [|s1 [|s2 [|s3 suf]]]]; try done;
    cbn [app well_formed] in Hc; try discriminate;
    repeat (let H := fresh in apply andb_prop in Hc as [Hc H]);
    try apply negb_true_iff in Hc;
    cbn [app decode_ignore];
    assert ((b0 <? 0x80) = false) as -> by (to_props; apply N.ltb_ge; lia);
    assert ((b0 <? 0xC2) = false) as -> by (to_props; apply N.ltb_ge; lia);
    repeat match goal with
      | H : ?t = _ |- context [?t] => rewrite H
      end.
  all: try assert ((b0 <? 0xE0) = false) as ->
         by (to_props; apply N.ltb_ge; lia).
  all: try assert ((b0 <? 0xF0) = false) as ->
         by (to_props; apply N.ltb_ge; lia).
  all: repeat match goal with
      | H : ?t = _ |- context [?t] => rewrite H
      end.
  all: destruct rest as [|b rest']; [reflexivity|].
  all: match goal with
       | |- context [if cont ?x then _ else _] =>
           destruct (cont x) eqn:Hb
       | |- context [if second_ok ?y ?x then _ else _] =>
           destruct (second_ok y x) eqn:Hb
       end; [exfalso|reflexivity].
  all: first
    [ apply (Hno _ _ [] eq_refl); tests_hold
    | apply (Hno _ _ [0x80] eq_refl); tests_hold
    | apply (Hno _ _ [0x80; 0x80] eq_refl); tests_hold ].
Qed.

(** The relation has one solution, the decoder's. *)
Lemma lenient_unique data text :
  lenient data text -> text = decode_ignore data.
Proof.
  induction 1 as [|c bc rest text Hc _ IH|b rest text Hb _ IH
                  |pre rest text Hcut Hnext _ IH].
  - reflexivity.
  - by rewrite (decode_encode_char _ _ _ Hc), IH.
  - by rewrite decode_ignore_stray.
  - by rewrite decode_ignore_drop_cut.
Qed.

End LenientFacts.

Section Reading.
Import Samples MoreSamples.

Lemma universal_newlines_other c s :
  c <> 13 -> universal_newlines (c :: s) = c :: universal_newlines s.
Proof.
  intros Hc. destruct c as [|p]; [done|].
  do 4 (destruct p as [p|p|]; try done).
Qed.

Lemma universal_newlines_cr c s :
  c <> 10 ->
  universal_newlines (13 :: c :: s) = 10 :: universal_newlines (c :: s).
Proof.
  intros Hc. destruct c as [|p]; [done|].
  do 4 (destruct p as [p|p|]; try done).
Qed.

Lemma normalised_universal_newlines_le n : forall s,
  (length s <= n)%nat -> normalised s (universal_newlines s).
Proof.
  induction n as [|n IH]; intros [|c s] Hn; cbn [length] in Hn;
    try lia; try apply normalised_nil.
  destruct (decide (c = 13)) as [->|Hc].
  - destruct s as [|c' s].
    { apply (normalised_cr [] []); [done | apply normalised_nil]. }
    destruct (decide (c' = 10)) as [->|Hc'].
    + apply normalised_crlf, IH. cbn [length] in Hn. lia.
    + rewrite universal_newlines_cr by done. apply normalised_cr.
      * intros s' [= ? _]. done.
      * apply IH. cbn [length] in *. lia.
  - rewrite universal_newlines_other by done.
    apply normalised_other; [done|]. apply IH. lia.
Qed.

Lemma normalised_unique s t : normalised s t -> t = universal_newlines s.
Proof.
  induction 1 as [|s t _ IH|s t Hs _ IH|c s t Hc _ IH].
  - reflexivity.
  - by rewrite IH.
  - destruct s as [|c' s]; [by rewrite IH|].
    rewrite universal_newlines_cr; [by rewrite IH|].
    intros ->. by apply (Hs s).
  - by rewrite universal_newlines_other, IH.
Qed.

(** C8 (as amended): reading a file that exists never raises, whatever
    its bytes.  The text read is the one text that is the data with
    every byte that is part of no character left out and nothing else
    changed, then with its line ends normalised; the parser is given
    exactly that text, and the run goes on with the message it returns,
    or stops on the exception it raises. *)
Theorem reading_never_raises mff argv fs path data :
  argv !! 1%nat = Some path -> fs !! path = Some data ->
  exists decoded text,
    (forall s, Utf8.lenient data s <-> s = decoded) /\
    Utf8.kept_in decoded data /\
    (forall t, normalised decoded t <-> t = text) /\
    read_text path (initial fs) = (Ok text, initial fs) /\
    main mff argv fs
    = match mff text with
      | Ok msg => process msg (initial fs)
      | Raise e => (Raise e, initial fs)
      end.
Proof.
  intros Hpath Hdata.
  exists (Utf8.decode_ignore data),
         (universal_newlines (Utf8.decode_ignore data)).
  split; [|split; [|split; [|split]]].
  - intros s. split; [apply LenientFacts.lenient_unique|].
    intros ->. apply LenientFacts.lenient_decode_ignore.
  - apply Utf8Facts.decode_ignore_kept.
  - intros t. split; [apply normalised_unique|].
    intros ->.
    by apply (normalised_universal_newlines_le
                (length (Utf8.decode_ignore data))).
  - unfold read_text. cbn [files initial]. by rewrite Hdata.
  - rewrite main_unfold.
    pose proof (lookup_lt_Some _ _ _ Hpath) as Hlen.
    rewrite (proj2 (Nat.ltb_ge _ _)) by lia.
    by rewrite (nth_lookup_Some _ _ _ _ Hpath), Hdata.
Qed.

Lemma reading_never_raises_witness :
  exists decoded text,
    (forall s, Utf8.lenient damaged s <-> s = decoded) /\
    Utf8.kept_in decoded damaged /\
    (forall t, normalised decoded t <-> t = text) /\
    read_text mail (initial {[ mail := damaged ]})
    = (Ok text, initial {[ mail := damaged ]}) /\
    main (parsed html_page) argv {[ mail := damaged ]}
    = match parsed html_page text with
      | Ok msg => process msg (initial {[ mail := damaged ]})
      | Raise e => (Raise e, initial {[ mail := damaged ]})
      end.
Proof.
  apply (reading_never_raises (parsed html_page) argv
           {[ mail := damaged ]} mail damaged); reflexivity.
Defined.

(** What the run reads from the damaged file: the two bytes that are
    part of no character are gone, the rest is kept in order, and the
    line ends with a line feed. *)
Lemma damaged_read :
  read_text mail (initial {[ mail := damaged ]})
  = (Ok [0x48; 0xE9; 0x0A; 0x69], initial {[ mail := damaged ]}).
Proof. reflexivity. Qed.

(** C8, as stated, fails: on a file in which every byte decodes, the
    read returns the text and the run still does not go on normally:
    the parser raises and the run stops, with nothing printed. *)
Lemma parser_error_stops_run :
  read_text mail (initial {[ mail := bad_parameter ]})
  = (Ok bad_parameter, initial {[ mail := bad_parameter ]}) /\
  parser_on_bad_parameter bad_parameter = Raise IndexError /\
  main parser_on_bad_parameter argv {[ mail := bad_parameter ]}
  = (Raise IndexError, initial {[ mail := bad_parameter ]}) /\
  exit_status
    (main parser_on_bad_parameter argv {[ mail := bad_parameter ]}).1
  = 1%Z.
Proof. vm_compute. repeat split; congruence. Qed.

End Reading.

(** ** What a run can touch *)

Section Confinement.

Lemma confined_mono {A} allowed allowed' (c : M A) :
  allowed ⊆ allowed' -> confined allowed c -> confined allowed' c.
Proof.
  intros Hsub Hc w. destruct (Hc w) as (Hf & Ho & Hs). repeat split.
  - intros path Hp. apply Hf. intros Hin. by apply Hp, Hsub.
  - intros path Hp. destruct (Ho path Hp); [by left | right; by apply Hsub].
  - done.
Qed.

Lemma confined_lift {A} allowed (r : result A) : confined allowed (lift r).
Proof. intros w. split; [done | split; [by left | done]]. Qed.

Lemma confined_raise {A} allowed e : confined allowed (@raise A e).
Proof. intros w. split; [done | split; [by left | done]]. Qed.

Lemma confined_print allowed line : confined allowed (print line).
Proof.
  intros w. unfold print. cbn [snd stdout files opened].
  split; [done | split; [by left | by apply prefix_app_r]].
Qed.

Lemma confined_bind {A B} allowed (c : M A) (k : A -> M B) :
  confined allowed c -> (forall a, confined allowed (k a)) ->
  confined allowed (x <- c ;; k x).
Proof.
  intros Hc Hk w. unfold bind. destruct (Hc w) as (Hf & Ho & Hs).
  destruct (c w) as [[a|e] w']; cbn [snd] in *; [|done].
  destruct (Hk a w') as (Hf' & Ho' & Hs'). repeat split.
  - intros path Hp. by rewrite Hf', Hf.
  - intros path Hp. destruct (Ho' path Hp) as [Hin|]; [by apply Ho | by right].
  - by etrans.
Qed.

Lemma confined_open_write path : confined [path] (open_write path).
Proof.
  intros w. unfold open_write. cbn [snd stdout files opened]. repeat split.
  - intros path' Hp. rewrite lookup_insert_ne; [done|].
    intros ->. apply Hp. by apply list_elem_of_singleton.
  - intros path' [Hin|Hin]%elem_of_app; [by left | by right].
  - done.
Qed.

Lemma confined_write path v : confined [path] (write path v).
Proof.
  intros w. unfold write. destruct v as [|s| |]; try by apply confined_raise.
  destruct (Utf8.encode s) as [b|]; [|by apply confined_raise].
  cbn [snd stdout files opened]. split; [|split; [by left | done]].
  intros path' Hp. rewrite lookup_insert_ne; [done|].
  intros ->. apply Hp. by apply list_elem_of_singleton.
Qed.

Lemma confined_save v path saved absent :
  confined [path] (save v path saved absent).
Proof.
  unfold save. destruct (truthy v); [|apply confined_print].
  apply confined_bind; [apply confined_open_write | intros _].
  apply confined_bind; [apply confined_write | intros _].
  apply confined_bind; [apply confined_print | intros _].
  apply confined_bind; [apply confined_lift | intros n].
  apply confined_print.
Qed.

Lemma in_output_files path :
  path ∈ [html_file; text_file] <-> path = html_file \/ path = text_file.
Proof.
  rewrite !elem_of_cons. split; [|tauto].
  intros [?|[?|?%elem_of_nil]]; tauto.
Qed.

Lemma confined_output st : confined [html_file; text_file] (output st).
Proof.
  unfold output.
  apply confined_bind; [|intros _].
  { eapply confined_mono; [|apply confined_save].
    intros p ->%list_elem_of_singleton. apply in_output_files. by left. }
  apply confined_bind; [|intros _].
  { eapply confined_mono; [|apply confined_save].
    intros p ->%list_elem_of_singleton. apply in_output_files. by right. }
  repeat (apply confined_bind; [|intros _]); apply confined_print.
Qed.

Lemma confined_process msg : confined [html_file; text_file] (process msg).
Proof.
  unfold process.
  do 4 (apply confined_bind; [apply confined_print | intros _]).
  apply confined_bind; [apply confined_lift | intros st].
  apply confined_output.
Qed.

Lemma confined_script mff argv :
  confined [html_file; text_file] (script mff argv).
Proof.
  unfold script. destruct (length argv <? 2)%nat.
  - apply confined_bind; [apply confined_print | intros _].
    apply confined_raise.
  - apply confined_bind;
      [|intros text; apply confined_bind;
        [apply confined_lift | intros msg; apply confined_process]].
    intros w. unfold read_text.
    destruct (files w !! _); (split; [done | split; [by left | done]]).
Qed.

(** X3: whatever the arguments, the files and the message, a run changes
    no file other than extracted-email.html and extracted-email.txt, and
    opens no other file for writing (also when it stops on an error). *)
Theorem only_output_files_change mff argv fs :
  (forall path, path <> html_file -> path <> text_file ->
     files (main mff argv fs).2 !! path = fs !! path) /\
  (forall path, path ∈ opened (main mff argv fs).2 ->
     path = html_file \/ path = text_file).
Proof.
  destruct (confined_script mff argv (initial fs)) as (Hf & Ho & _).
  split.
  - intros path H1 H2. apply Hf. by intros [?|?]%in_output_files.
  - intros path Hp. destruct (Ho path Hp) as [Hin|Hin].
    + by apply elem_of_nil in Hin.
    + by apply in_output_files.
Qed.

Lemma only_output_files_change_witness :
  files (main (Samples.parsed Samples.html_page) Samples.argv Samples.fs).2
    !! Samples.mail
  = Samples.fs !! Samples.mail.
Proof.
  refine (proj1 (only_output_files_change (Samples.parsed Samples.html_page)
                   Samples.argv Samples.fs) Samples.mail _ _);
    discriminate.
Defined.

End Confinement.

(** ** Errors, edge cases and round trips *)

Section Further.
Import Samples MoreSamples.

(** X1: when the file named by the argument does not exist, the run
    stops on [FileNotFoundError] before it prints anything: exit status
    1, no output, no file touched. *)
Theorem missing_input_file mff argv fs path :
  argv !! 1%nat = Some path -> fs !! path = None ->
  main mff argv fs = (Raise FileNotFoundError, World [] fs []) /\
  exit_status (main mff argv fs).1 = 1%Z.
Proof.
  intros Hpath Hnone. rewrite main_unfold.
  pose proof (lookup_lt_Some _ _ _ Hpath) as Hlen.
  rewrite (proj2 (Nat.ltb_ge _ _)) by lia.
  by rewrite (nth_lookup_Some _ _ _ _ Hpath), Hnone.
Qed.

Lemma missing_input_file_witness :
  main (parsed html_page) argv ∅
  = (Raise FileNotFoundError, World [] ∅ []).
Proof.
  refine (proj1 (missing_input_file (parsed html_page) argv ∅ mail
                   eq_refl eq_refl)).
Defined.

(** X2: only the first path argument is used: the program name and any
    argument after the path change nothing. *)
Theorem other_arguments_ignored mff prog prog' path rest fs :
  main mff (prog :: path :: rest) fs = main mff [prog'; path] fs.
Proof. by rewrite !main_unfold. Qed.

Lemma process_raise msg e fs :
  extract (root msg) = Raise e ->
  process msg (initial fs) = (Raise e, World (header_lines msg) fs []).
Proof. intros He. by rewrite process_extract, He. Qed.

(** X4: a single-part message whose [get_content()] raises (an unknown
    charset, say): the run stops on that exception after the header
    lines, before any file is opened. *)
Theorem single_part_content_error mff argv fs msg ct e :
  reads mff argv fs msg -> root msg = Leaf ct (Raise e) ->
  main mff argv fs = (Raise e, World (header_lines msg) fs []).
Proof.
  intros Hr Hroot. rewrite (main_reads _ _ _ _ Hr).
  apply process_raise. by rewrite Hroot, extract_single.
Qed.

Lemma single_part_content_error_witness :
  main (parsed unknown_charset) argv fs
  = (Raise LookupError, World (header_lines unknown_charset) fs []).
Proof.
  apply (single_part_content_error (parsed unknown_charset) argv fs
           unknown_charset text_plain LookupError);
    solve [reflexivity | apply sample_reads].
Defined.

Lemma for_each_part_app pre post st :
  for_each_part (pre ++ post) st
  = match for_each_part pre st with
    | Ok st' => for_each_part post st'
    | Raise e => Raise e
    end.
Proof.
  induction pre as [|p pre IH] in st |- *; [reflexivity|].
  cbn [app for_each_part]. by destruct (classify p st).
Qed.

Lemma classify_raise p st e :
  get_content_type p = text_html \/ get_content_type p = text_plain ->
  get_content p = Raise e -> classify p st = Raise e.
Proof.
  intros Ht He. unfold classify. rewrite He.
  destruct Ht as [-> | ->]; [by rewrite str_eqb_refl|].
  by rewrite (str_eqb_ne text_plain text_html), str_eqb_refl.
Qed.

(** X5: in a multipart message the loop stops at the first HTML or text
    part whose [get_content()] raises: the exception ends the run after
    the header lines, no file is written, and the bodies found before
    are lost. *)
Theorem first_failing_part_stops mff argv fs msg pre p post e :
  reads mff argv fs msg -> is_multipart (root msg) = true ->
  walk (root msg) = pre ++ p :: post ->
  Forall (fun q => get_content_type q = text_html \/
                   get_content_type q = text_plain ->
                   exists v, get_content q = Ok v) pre ->
  get_content_type p = text_html \/ get_content_type p = text_plain ->
  get_content p = Raise e ->
  main mff argv fs = (Raise e, World (header_lines msg) fs []).
Proof.
  intros Hr Hm Hw Hpre Ht He. rewrite (main_reads _ _ _ _ Hr).
  apply process_raise. unfold extract. rewrite Hm, Hw, for_each_part_app.
  rewrite for_each_part_ok by done. cbn [for_each_part].
  by rewrite (classify_raise _ _ e).
Qed.

Lemma first_failing_part_stops_witness :
  main (parsed broken_alternative) argv fs
  = (Raise LookupError, World (header_lines broken_alternative) fs []).
Proof.
  apply (first_failing_part_stops (parsed broken_alternative) argv fs
           broken_alternative
           [root broken_alternative; Leaf text_plain (Ok (PStr (lit "Hi")))]
           (Leaf text_html (Raise LookupError))
           [Leaf text_html (Ok (PStr (lit "<p>Hi</p>")))] LookupError);
    try solve [reflexivity | apply sample_reads | by left].
  apply Forall_cons_2; [intros [H|H]; discriminate H|].
  apply Forall_cons_2; [intros _; by eexists | apply Forall_nil_2].
Defined.

Lemma for_each_part_filter parts : forall st,
  for_each_part parts st
  = for_each_part
      (filter (fun p => get_content_type p = text_html \/
                        get_content_type p = text_plain) parts) st.
Proof.
  induction parts as [|p parts IH]; intros st; [reflexivity|].
  destruct (decide (get_content_type p = text_html \/
                    get_content_type p = text_plain)) as [Ht|Hn].
  - rewrite filter_cons_True by done. cbn [for_each_part].
    destruct (classify p st); [apply IH | done].
  - rewrite filter_cons_False by done. cbn [for_each_part].
    rewrite classify_other by tauto. apply IH.
Qed.

(** X6: the loop asks only HTML and text parts for their content: two
    multipart messages with the same HTML and text parts, in the same
    order, give the same extraction, whatever their containers and
    other parts are. *)
Theorem other_parts_not_consulted m1 m2 :
  is_multipart m1 = true -> is_multipart m2 = true ->
  filter (fun p => get_content_type p = text_html \/
                   get_content_type p = text_plain) (walk m1)
  = filter (fun p => get_content_type p = text_html \/
                     get_content_type p = text_plain) (walk m2) ->
  extract m1 = extract m2.
Proof.
  intros H1 H2 Hf. unfold extract. rewrite H1, H2.
  by rewrite (for_each_part_filter (walk m1)), Hf, <- for_each_part_filter.
Qed.

Lemma other_parts_not_consulted_witness :
  extract (root with_attachment) = extract (root html_and_text).
Proof.
  apply (other_parts_not_consulted (root with_attachment)
           (root html_and_text)); reflexivity.
Defined.

(** X7: a single-part message of a type other than text/html whose
    content is [bytes]: when it is empty the run reports both parts
    absent and ends normally; otherwise the run prints the no-HTML line,
    empties extracted-email.txt and stops on [TypeError]. *)
Theorem binary_single_part mff argv fs msg ct b :
  reads mff argv fs msg -> root msg = Leaf ct (Ok (PBytes b)) ->
  ct <> text_html ->
  main mff argv fs
  = match b with
    | [] => (Ok tt,
             World (header_lines msg ++ [no_html_line; no_text_line]
                                     ++ closing_lines) fs [])
    | _ :: _ => (Raise TypeError,
                 World (header_lines msg ++ [no_html_line])
                       (<[text_file := []]> fs) [text_file])
    end.
Proof.
  intros Hr Hroot Hct. rewrite (main_reads _ _ _ _ Hr), process_extract.
  rewrite Hroot, extract_single, str_eqb_ne by done.
  unfold output, bind. cbn [fst snd].
  rewrite save_absent by done. destruct b as [|c b].
  - rewrite save_absent by done. unfold print.
    cbn [stdout files opened initial]. by rewrite <- !app_assoc.
  - by rewrite save_bytes.
Qed.

Lemma binary_single_part_witness :
  main (parsed png) argv fs
  = (Raise TypeError,
     World (header_lines png ++ [no_html_line])
           (<[text_file := []]> fs) [text_file]).
Proof.
  apply (binary_single_part (parsed png) argv fs png (lit "image/png")
           [137; 80; 78; 71]);
    solve [reflexivity | apply sample_reads | discriminate].
Defined.

(** X8: an HTML body that is not empty and that the strict encoder
    refuses (a lone surrogate): the run stops on [UnicodeEncodeError]
    with extracted-email.html left empty; no report line is printed and
    the text body, even if one was found, is never written. *)
Theorem unencodable_html_stops mff argv fs msg c s t :
  reads mff argv fs msg -> extract (root msg) = Ok (PStr (c :: s), t) ->
  Utf8.encode (c :: s) = None ->
  main mff argv fs
  = (Raise UnicodeEncodeError,
     World (header_lines msg) (<[html_file := []]> fs) [html_file]).
Proof.
  intros Hr He Hb. rewrite (main_reads _ _ _ _ Hr), process_extract, He.
  unfold output, bind. cbn [fst snd]. by rewrite save_unencodable.
Qed.

Lemma unencodable_html_stops_witness :
  main (parsed surrogate_html) argv fs
  = (Raise UnicodeEncodeError,
     World (header_lines surrogate_html) (<[html_file := []]> fs)
           [html_file]).
Proof.
  apply (unencodable_html_stops (parsed surrogate_html) argv fs
           surrogate_html 0xD800 [] (PStr (lit "Hi")));
    solve [reflexivity | apply sample_reads].
Defined.

(** X9: a text body that the strict encoder refuses, after an HTML body
    that was handled: the HTML file and its report are complete, then
    extracted-email.txt is left empty and the run stops on
    [UnicodeEncodeError], without the closing lines. *)
Theorem unencodable_text_stops mff argv fs msg h c s :
  reads mff argv fs msg -> extract (root msg) = Ok (h, PStr (c :: s)) ->
  good h -> Utf8.encode (c :: s) = None ->
  main mff argv fs
  = (Raise UnicodeEncodeError,
     World (header_lines msg ++ report saved_html_line no_html_line h)
           (<[text_file := []]> (stored html_file h fs))
           (touched html_file h ++ [text_file])).
Proof.
  intros Hr He Hh Hb. rewrite (main_reads _ _ _ _ Hr), process_extract, He.
  unfold output, bind. cbn [fst snd]. rewrite save_good by done.
  by rewrite save_unencodable.
Qed.

Lemma unencodable_text_stops_witness :
  main (parsed surrogate_text) argv fs
  = (Raise UnicodeEncodeError,
     World (header_lines surrogate_text
              ++ [saved_html_line; size_line 9])
           (<[text_file := []]> (<[html_file := lit "<p>Hi</p>"]> fs))
           [html_file; text_file]).
Proof.
  apply (unencodable_text_stops (parsed surrogate_text) argv fs
           surrogate_text (PStr (lit "<p>Hi</p>")) 0xD800 []);
    try solve [reflexivity | apply sample_reads].
  right. by exists (lit "<p>Hi</p>"), (lit "<p>Hi</p>").
Defined.


Lemma confined_output_falsy_html h t :
  truthy h = false -> confined [text_file] (output (h, t)).
Proof.
  intros Hh. unfold output, save at 1. cbn [fst snd]. rewrite Hh.
  apply confined_bind; [apply confined_print | intros _].
  apply confined_bind; [apply confined_save | intros _].
  repeat (apply confined_bind; [|intros _]); apply confined_print.
Qed.

Lemma confined_output_falsy_text h t :
  truthy t = false -> confined [html_file] (output (h, t)).
Proof.
  intros Ht. unfold output, save at 2. cbn [fst snd]. rewrite Ht.
  apply confined_bind; [apply confined_save | intros _].
  repeat (apply confined_bind; [|intros _]); apply confined_print.
Qed.

Lemma main_output mff argv fs msg st :
  reads mff argv fs msg -> extract (root msg) = Ok st ->
  main mff argv fs = output st (World (header_lines msg) fs []).
Proof.
  intros Hr He. by rewrite (main_reads _ _ _ _ Hr), process_extract, He.
Qed.

Lemma falsy_untouched mff argv fs msg h t :
  reads mff argv fs msg -> extract (root msg) = Ok (h, t) ->
  (truthy h = false ->
     files (main mff argv fs).2 !! html_file = fs !! html_file /\
     html_file ∉ opened (main mff argv fs).2) /\
  (truthy t = false ->
     files (main mff argv fs).2 !! text_file = fs !! text_file /\
     text_file ∉ opened (main mff argv fs).2).
Proof.
  intros Hr He. rewrite (main_output _ _ _ _ _ Hr He). split.
  - intros Hh.
    destruct (confined_output_falsy_html h t Hh
                (World (header_lines msg) fs [])) as (Hf & Ho & _).
    split.
    + apply Hf. intros H%list_elem_of_singleton. discriminate H.
    + intros Hin. destruct (Ho _ Hin) as [H|H%list_elem_of_singleton];
        [by apply elem_of_nil in H | discriminate H].
  - intros Ht.
    destruct (confined_output_falsy_text h t Ht
                (World (header_lines msg) fs [])) as (Hf & Ho & _).
    split.
    + apply Hf. intros H%list_elem_of_singleton. discriminate H.
    + intros Hin. destruct (Ho _ Hin) as [H|H%list_elem_of_singleton];
        [by apply elem_of_nil in H | discriminate H].
Qed.

(** X10: a variable left with a false value ([None], an empty string,
    empty bytes) leaves its output file as it was, present or not, and
    unopened, whatever happens to the other one: a file of an earlier
    run is neither removed nor emptied. *)
Theorem falsy_value_leaves_file mff argv fs msg h t :
  reads mff argv fs msg -> extract (root msg) = Ok (h, t) ->
  (truthy h = false ->
     files (main mff argv fs).2 !! html_file = fs !! html_file /\
     html_file ∉ opened (main mff argv fs).2) /\
  (truthy t = false ->
     files (main mff argv fs).2 !! text_file = fs !! text_file /\
     text_file ∉ opened (main mff argv fs).2).
Proof. apply falsy_untouched. Qed.

Lemma falsy_value_leaves_file_witness :
  files (main (parsed png) argv (<[html_file := [0x6F; 0x6C; 0x64]]> fs)).2
    !! html_file
  = Some [0x6F; 0x6C; 0x64].
Proof.
  refine (proj1 (proj1 (falsy_value_leaves_file (parsed png) argv
            (<[html_file := [0x6F; 0x6C; 0x64]]> fs) png PNone
            (PBytes [137; 80; 78; 71]) _ eq_refl) eq_refl)).
  exists mail, []. by repeat split.
Defined.

(** X11: a single-part message never has both output files opened. *)
Theorem single_part_one_file mff argv fs msg :
  reads mff argv fs msg -> is_multipart (root msg) = false ->
  ~ (html_file ∈ opened (main mff argv fs).2 /\
     text_file ∈ opened (main mff argv fs).2).
Proof.
  intros Hr Hm [Hh Ht].
  destruct (extract (root msg)) as [[h t]|e] eqn:He.
  - assert (truthy h = false \/ truthy t = false) as [Hf|Hf].
    { destruct (root msg) as [ct c|]; [|discriminate].
      rewrite extract_single in He. destruct c as [v|]; [|done].
      destruct (str_eqb ct text_html); injection He as <- <-; auto. }
    + by apply (proj1 (falsy_untouched _ _ _ _ _ _ Hr He) Hf).
    + by apply (proj2 (falsy_untouched _ _ _ _ _ _ Hr He) Hf).
  - rewrite (main_reads _ _ _ _ Hr), (process_raise _ _ _ He) in Hh.
    by apply elem_of_nil in Hh.
Qed.

Lemma single_part_one_file_witness :
  ~ (html_file ∈ opened (main (parsed html_page) argv fs).2 /\
     text_file ∈ opened (main (parsed html_page) argv fs).2).
Proof.
  apply (single_part_one_file (parsed html_page) argv fs html_page);
    solve [reflexivity | apply sample_reads].
Defined.

Lemma encode_char_length_one c bc :
  Utf8.encode_char c = Some bc -> (length bc = 1%nat <-> c < 0x80).
Proof.
  unfold Utf8.encode_char. intros H.
  destruct (N.ltb_spec c 0x80); [injection H as <-; by split|].
  repeat case_match; try discriminate; injection H as <-; cbn; split; lia.
Qed.

Lemma encode_same_length s : forall b,
  Utf8.encode s = Some b ->
  (length s = length b <-> Forall (fun c => c < 0x80) s).
Proof.
  induction s as [|c s IH]; cbn [Utf8.encode]; intros b H.
  - injection H as <-. split; [constructor | done].
  - destruct (Utf8.encode_char c) as [bc|] eqn:Hc; [|discriminate].
    destruct (Utf8.encode s) as [bs|] eqn:Hs; [|discriminate].
    injection H as <-. rewrite length_app. cbn [length].
    pose proof (Utf8Facts.encode_char_length _ _ Hc).
    pose proof (Utf8Facts.encode_length _ _ Hs).
    pose proof (encode_char_length_one _ _ Hc) as Hone.
    specialize (IH _ eq_refl). rewrite Forall_cons. split.
    + intros Hl. split; [apply Hone | apply IH]; lia.
    + intros [H1%Hone H2%IH]. lia.
Qed.

(** X13: when an HTML body is written, the number in the size line is
    the number of code points of the body; it is at most the number of
    bytes written, and equal to it exactly when the body is ASCII. *)
Theorem reported_size_is_code_points mff argv fs msg c s t b :
  reads mff argv fs msg -> extract (root msg) = Ok (PStr (c :: s), t) ->
  good t -> Utf8.encode (c :: s) = Some b ->
  size_line (length (c :: s)) ∈ stdout (main mff argv fs).2 /\
  files (main mff argv fs).2 !! html_file = Some b /\
  (length (c :: s) <= length b)%nat /\
  (length (c :: s) = length b <-> Forall (fun x => x < 0x80) (c :: s)).
Proof.
  intros Hr He Ht Hb. rewrite (main_reads _ _ _ _ Hr).
  rewrite (process_good _ _ _ _ He) by (done || right; by exists (c :: s), b).
  cbn [snd stdout files report]. split; [|split; [|split]].
  - rewrite elem_of_app. right. cbn [app]. rewrite !elem_of_cons. auto.
  - rewrite stored_lookup_ne by (symmetry; apply files_differ).
    by apply stored_lookup_eq.
  - by apply Utf8Facts.encode_length.
  - by apply encode_same_length.
Qed.

Lemma reported_size_is_code_points_witness :
  size_line 1 ∈ stdout (main (parsed html_accent) argv fs).2 /\
  files (main (parsed html_accent) argv fs).2 !! html_file
  = Some [0xC3; 0xA9].
Proof.
  destruct (reported_size_is_code_points (parsed html_accent) argv fs
              html_accent 233 [] PNone [0xC3; 0xA9]) as (H1 & H2 & _);
    [apply sample_reads | reflexivity | by left | reflexivity |].
  by split.
Defined.

(** X14: an HTML file the run wrote, read the way the script reads its
    input, gives back the body, with line ends normalised. *)
Theorem written_file_reads_back mff argv fs msg c s t b :
  reads mff argv fs msg -> extract (root msg) = Ok (PStr (c :: s), t) ->
  good t -> Utf8.encode (c :: s) = Some b ->
  read_text html_file (main mff argv fs).2
  = (Ok (universal_newlines (c :: s)), (main mff argv fs).2).
Proof.
  intros Hr He Ht Hb.
  assert (files (main mff argv fs).2 !! html_file = Some b) as Hf.
  { rewrite (main_reads _ _ _ _ Hr).
    rewrite (process_good _ _ _ _ He)
      by (done || right; by exists (c :: s), b).
    cbn [snd files].
    rewrite stored_lookup_ne by (symmetry; apply files_differ).
    by apply stored_lookup_eq. }
  unfold read_text. rewrite Hf. do 3 f_equal.
  rewrite <- (app_nil_r b). by rewrite (Utf8Facts.decode_encode _ _ [] Hb),
    app_nil_r.
Qed.

Lemma written_file_reads_back_witness :
  read_text html_file (main (parsed html_accent) argv fs).2
  = (Ok [233], (main (parsed html_accent) argv fs).2).
Proof.
  apply (written_file_reads_back (parsed html_accent) argv fs html_accent
           233 [] PNone [0xC3; 0xA9]);
    solve [reflexivity | apply sample_reads | by left].
Defined.

Lemma universal_newlines_facts n : forall s,
  (length s <= n)%nat ->
  (13 ∉ universal_newlines s) /\
  universal_newlines (universal_newlines s) = universal_newlines s /\
  (length (universal_newlines s) <= length s)%nat /\
  (13 ∉ s -> universal_newlines s = s).
Proof.
  induction n as [|n IH]; intros [|c s] Hn; cbn [length] in Hn; try lia;
    try (by repeat split; try apply not_elem_of_nil).
  destruct (decide (c = 13)) as [->|Hc].
  - destruct s as [|c' s].
    { change (universal_newlines [13]) with [10].
      split; [|split; [done|split; [done|]]].
      - intros [?|?%elem_of_nil]%elem_of_cons; done.
      - intros []. by left. }
    destruct (decide (c' = 10)) as [->|Hc'].
    + change (universal_newlines (13 :: 10 :: s))
        with (10 :: universal_newlines s).
      destruct (IH s) as (H1 & H2 & H3 & _); [cbn [length] in Hn; lia|].
      rewrite (universal_newlines_other 10) by done.
      split; [|split; [|split]].
      * intros [?|?]%elem_of_cons; done.
      * by rewrite H2.
      * cbn [length]. lia.
      * intros []. by left.
    + rewrite universal_newlines_cr by done.
      destruct (IH (c' :: s)) as (H1 & H2 & H3 & _); [cbn [length] in *; lia|].
      rewrite (universal_newlines_other 10) by done.
      split; [|split; [|split]].
      * intros [?|?]%elem_of_cons; done.
      * by rewrite H2.
      * cbn [length] in *. lia.
      * intros []. by left.
  - rewrite universal_newlines_other by done.
    destruct (IH s) as (H1 & H2 & H3 & H4); [lia|].
    split; [|split; [|split]].
    + intros [?|?]%elem_of_cons; done.
    + rewrite universal_newlines_other by done. by rewrite H2.
    + cbn [length]. lia.
    + intros Hin. rewrite H4; [done|]. intros ?. apply Hin. by right.
Qed.

(** X15: the text read has no carriage return; normalising line ends
    twice is as once, never makes the text longer, and changes nothing
    in a text without carriage returns. *)
Theorem universal_newlines_normalises s :
  (13 ∉ universal_newlines s) /\
  universal_newlines (universal_newlines s) = universal_newlines s /\
  (length (universal_newlines s) <= length s)%nat /\
  (13 ∉ s -> universal_newlines s = s).
Proof. by apply (universal_newlines_facts (length s)). Qed.

Lemma universal_newlines_normalises_witness :
  universal_newlines (lit "a,b") = lit "a,b".
Proof.
  refine (proj2 (proj2 (proj2 (universal_newlines_normalises (lit "a,b")))) _).
  intros H. repeat (apply elem_of_cons in H as [H|H]; [discriminate H|]).
  by apply elem_of_nil in H.
Defined.

Lemma ascii_codec s :
  Forall (fun c => c < 0x80) s ->
  Utf8.decode_ignore s = s /\ Utf8.encode s = Some s.
Proof.
  induction 1 as [|c s Hc _ [IH1 IH2]]; [done|].
  cbn [Utf8.decode_ignore Utf8.encode]. unfold Utf8.encode_char.
  rewrite (proj2 (N.ltb_lt _ _) Hc), IH1, IH2. done.
Qed.

(** X16: an all-ASCII file is read as its own bytes with the line ends
    normalised, so byte for byte when it holds no carriage return; an
    all-ASCII body that is not empty is written byte for byte. *)
Theorem ascii_read_and_written s :
  Forall (fun c => c < 0x80) s ->
  (forall path w,
      files w !! path = Some s ->
      read_text path w = (Ok (universal_newlines s), w)) /\
  (13 ∉ s ->
   forall path w,
     files w !! path = Some s -> read_text path w = (Ok s, w)) /\
  (s <> [] ->
   forall path saved absent w,
     (save (PStr s) path saved absent w).1 = Ok tt /\
     files (save (PStr s) path saved absent w).2 !! path = Some s).
Proof.
  intros Hs. destruct (ascii_codec s Hs) as [Hd He].
  assert (forall path w, files w !! path = Some s ->
            read_text path w = (Ok (universal_newlines s), w)) as Hread.
  { intros path w Hf. unfold read_text. by rewrite Hf, Hd. }
  split; [done|]. split.
  - intros Hcr path w Hf. rewrite (Hread _ _ Hf).
    destruct (universal_newlines_facts (length s) s) as (_ & _ & _ & Hid);
      [done|]. by rewrite Hid.
  - intros Hne path saved absent w. destruct s as [|c s]; [done|].
    rewrite (save_text _ _ _ _ _ _ _ He). cbn [fst snd files].
    by rewrite lookup_insert_eq.
Qed.

Lemma ascii_read_and_written_witness :
  read_text mail (initial {[ mail := lit "Subject: Hi" ]})
  = (Ok (lit "Subject: Hi"), initial {[ mail := lit "Subject: Hi" ]}).
Proof.
  refine (proj1 (proj2 (ascii_read_and_written (lit "Subject: Hi") _)) _
            mail (initial {[ mail := lit "Subject: Hi" ]}) eq_refl).
  - repeat (apply Forall_cons_2; [reflexivity|]). apply Forall_nil_2.
  - intros H. repeat (apply elem_of_cons in H as [H|H]; [discriminate H|]).
    by apply elem_of_nil in H.
Defined.




End Further.
